(** * APEC Auto scraper: the crawl / extract pipeline

    A shallow embedding of [my_libs/apec/apec_data_extraction.py] and
    [my_libs/apec/apec_xlsx_writer.py], and the properties of the pipeline
    proved or refuted on it.

    Conventions of the embedding.
    - A Python [str] is a [string] whose characters are read as the code
      points U+0000 .. U+00FF.  Character classes ([isspace], [isdigit],
      decimal digits) are those of Python on that range.
    - A value stored in a record ([Any] in the source) is a [PyVal].
    - Code that can raise returns a [result]; [try/except/finally] are the
      combinators of section [Exceptions].
    - The browser session is an opaque capability: what a page looks like is
      data ([Row], [Group], [Page]), what navigation yields is a [World].
    - Logging at INFO and DEBUG level has no influence on control flow and is
      left out of the traces; WARNING and ERROR records are kept. *)

From Stdlib Require Import ZArith QArith Ascii String DecimalString.
From stdpp Require Import gmap strings list.

Open Scope string_scope.
Open Scope list_scope.

(** * Python primitives *)

Module Py.

(** ** Characters *)

Definition code (c : ascii) : nat := nat_of_ascii c.

(** [str.isspace] on one code point below 256: TAB..CR, FS..US, SPACE,
    NEL (U+0085) and NBSP (U+00A0). *)
Definition isspace_ch (c : ascii) : bool :=
  let n := code c in
  (((9 <=? n) && (n <=? 13)) || ((28 <=? n) && (n <=? 32))
   || (n =? 133) || (n =? 160))%nat.

(** Decimal digits (category Nd): the only ones below 256 are 0..9. *)
Definition isdecimal_ch (c : ascii) : bool :=
  let n := code c in ((48 <=? n) && (n <=? 57))%nat.

(** [str.isdigit] on one code point: the decimal digits and the
    superscripts U+00B2, U+00B3, U+00B9. *)
Definition isdigit_ch (c : ascii) : bool :=
  let n := code c in
  isdecimal_ch c || ((n =? 178) || (n =? 179) || (n =? 185))%nat.

(** ** Strings *)

Fixpoint forallb_str (p : ascii -> bool) (s : string) : bool :=
  match s with
  | EmptyString => true
  | String c s' => p c && forallb_str p s'
  end.

(** [s.isdigit()]: non-empty and every character a digit. *)
Definition isdigit (s : string) : bool :=
  match s with
  | EmptyString => false
  | _ => forallb_str isdigit_ch s
  end.

Definition isdecimal (s : string) : bool :=
  match s with
  | EmptyString => false
  | _ => forallb_str isdecimal_ch s
  end.

(** Truthiness of a [str]. *)
Definition truthy (s : string) : bool :=
  match s with EmptyString => false | _ => true end.

Fixpoint lstrip (s : string) : string :=
  match s with
  | EmptyString => EmptyString
  | String c s' => if isspace_ch c then lstrip s' else s
  end.

(** [rstrip] drops the trailing run of white space. *)
Fixpoint rstrip (s : string) : string :=
  match s with
  | EmptyString => EmptyString
  | String c s' =>
      match rstrip s' with
      | EmptyString => if isspace_ch c then EmptyString else String c EmptyString
      | r => String c r
      end
  end.

(** [s.strip()]. *)
Definition strip (s : string) : string := rstrip (lstrip s).

(** [s.replace(old, new, count)] for a one-character [old]; [count = None]
    is the two-argument call (replace all). *)
Fixpoint replace (old : ascii) (new : string) (count : option nat) (s : string)
  : string :=
  match s with
  | EmptyString => EmptyString
  | String c s' =>
      if Ascii.eqb c old then
        match count with
        | Some 0 => s
        | Some (S k) => new +:+ replace old new (Some k) s'
        | None => new +:+ replace old new None s'
        end
      else String c (replace old new count s')
  end.

Fixpoint startswith (p s : string) : bool :=
  match p, s with
  | EmptyString, _ => true
  | String a p', String b s' => Ascii.eqb a b && startswith p' s'
  | String _ _, EmptyString => false
  end.

(** The last character, if any. *)
Fixpoint last_ch (s : string) : option ascii :=
  match s with
  | EmptyString => None
  | String c EmptyString => Some c
  | String _ s' => last_ch s'
  end.

(** [needle in hay]. *)
Fixpoint contains (needle hay : string) : bool :=
  startswith needle hay ||
  match hay with
  | EmptyString => false
  | String _ hay' => contains needle hay'
  end.

(** [x in xs] for a list of strings. *)
Definition str_in_list (x : string) (xs : list string) : bool :=
  existsb (String.eqb x) xs.

(** [str(n)] for a non-negative [int]. *)
Definition str_of_nat (n : nat) : string :=
  NilZero.string_of_uint (Nat.to_uint n).

(** ** Numbers *)

Definition digit_val (c : ascii) : Z := (Z.of_nat (code c) - 48)%Z.

Fixpoint digits_val (acc : Z) (s : string) : Z :=
  match s with
  | EmptyString => acc
  | String c s' => digits_val (10 * acc + digit_val c)%Z s'
  end.

(** [int(s)] for a string of digits: defined on decimal digits only, a
    [ValueError] ([None]) otherwise.  (Signs, blanks and underscores, which
    [int] also accepts, never reach it: each call is guarded by
    [isdigit].) *)
Definition int_of_digits (s : string) : option Z :=
  if isdecimal s then Some (digits_val 0 s) else None.

(** Splits at the first ['.']. *)
Fixpoint split_dot (s : string) : string * option string :=
  match s with
  | EmptyString => (EmptyString, None)
  | String c s' =>
      if Ascii.eqb c "." then (EmptyString, Some s')
      else let '(a, b) := split_dot s' in (String c a, b)
  end.

(** [float(s)] for a string of the shape [digits], [digits.digits],
    [digits.] or [.digits]: the decimal number it denotes, as an exact
    rational (the rounding to binary64 is not modelled); [None] is
    [ValueError]. *)
Definition float_of_decimal (s : string) : option Q :=
  let '(ip, fp) := split_dot s in
  let fp := default EmptyString fp in
  if forallb_str isdecimal_ch ip && forallb_str isdecimal_ch fp
     && negb (String.eqb (ip +:+ fp) EmptyString)
  then Some (Qred (Qmake (digits_val 0 (ip +:+ fp))
                         (Z.to_pos (10 ^ Z.of_nat (String.length fp))%Z)))
  else None.

End Py.

(** * Exceptions *)

(** The exception classes the code distinguishes; [OtherException] stands for
    any other subclass of [Exception], with its message. *)
Inductive exn : Type :=
| NoSuchElementException
| TimeoutException
| ValueError
| OtherException (msg : string).

#[global] Instance exn_eq_dec : EqDecision exn.
Proof. solve_decision. Defined.

(** [str(e)], as it appears in a log record. *)
Definition exn_str (e : exn) : string :=
  match e with
  | NoSuchElementException => "no such element"
  | TimeoutException => "timeout"
  | ValueError => "value error"
  | OtherException msg => msg
  end.

Inductive result (A : Type) : Type :=
| Ok (a : A)
| Raise (e : exn).
Arguments Ok {A} a.
Arguments Raise {A} e.

Definition rbind {A B} (m : result A) (k : A -> result B) : result B :=
  match m with
  | Ok a => k a
  | Raise e => Raise e
  end.

#[global] Instance result_ret : MRet result := fun A a => Ok a.
#[global] Instance result_bind : MBind result := fun A B k m => rbind m k.

(** [try: body  except classes: handler] on a pure computation: [catches]
    says which exceptions the clause catches. *)
Definition try_except {A} (body : result A) (catches : exn -> bool)
    (handler : exn -> result A) : result A :=
  match body with
  | Ok a => Ok a
  | Raise e => if catches e then handler e else Raise e
  end.

Definition raises {A} (m : result A) : Prop :=
  match m with Ok _ => False | Raise _ => True end.

(** * Data model *)

(** A value of type [Any] stored in a record.  [VMark] is the string literal
    that [safe_extract_text] returns for a cell carrying the [icon-nal] icon;
    its characters lie outside the code points of [string], so no text read
    from a page is equal to it. *)
Inductive PyVal : Type :=
| VNone
| VStr (s : string)
| VInt (n : Z)
| VFloat (q : Q)
| VMark.

(** The members of the [ApecData] enum. *)
Inductive ApecData : Type :=
| KEYWORD | CATEGORY | MANUFACTURER | ARTICLE | NAME | NAME_URL
| WEIGHT | AVAILABILITY | LEAD_TIME | INFORMATION | PRICE.

#[global] Instance ApecData_eq_dec : EqDecision ApecData.
Proof. solve_decision. Defined.

(** [DataAttr(header=..., column=...)]; both default to [None]. *)
Record DataAttr : Type := { header : option string; column : option nat }.

Definition ApecData_value (k : ApecData) : DataAttr :=
  match k with
  | KEYWORD => {| header := Some "Keyword"; column := Some 0 |}
  | CATEGORY => {| header := Some "Category"; column := Some 1 |}
  | MANUFACTURER => {| header := Some "Manufacturer"; column := Some 2 |}
  | ARTICLE => {| header := Some "Article"; column := Some 3 |}
  | NAME => {| header := Some "Name"; column := Some 4 |}
  | NAME_URL => {| header := None; column := None |}
  | WEIGHT => {| header := Some "Net Weight, kg"; column := Some 5 |}
  | AVAILABILITY => {| header := Some "Availability"; column := Some 6 |}
  | LEAD_TIME => {| header := Some "Lead Time, days"; column := Some 7 |}
  | INFORMATION => {| header := Some "Information"; column := Some 8 |}
  | PRICE => {| header := Some "Price ($)"; column := Some 9 |}
  end.

Definition ApecData_members : list ApecData :=
  [KEYWORD; CATEGORY; MANUFACTURER; ARTICLE; NAME; NAME_URL;
   WEIGHT; AVAILABILITY; LEAD_TIME; INFORMATION; PRICE].

(** ** Python dictionaries

    A [dict] keeps its keys in insertion order, and assigning to a key that
    is present replaces the value in place. *)
Section Dict.
Context {K V : Type} `{EqDecision K}.

Definition dict : Type := list (K * V).

Fixpoint dict_set (k : K) (v : V) (d : dict) : dict :=
  match d with
  | [] => [(k, v)]
  | (k', v') :: d' =>
      if decide (k = k') then (k, v) :: d' else (k', v') :: dict_set k v d'
  end.

Fixpoint dict_get (k : K) (d : dict) : option V :=
  match d with
  | [] => None
  | (k', v') :: d' => if decide (k = k') then Some v' else dict_get k d'
  end.

Definition dict_keys (d : dict) : list K := map fst d.

(** [d.items()] *)
Definition dict_items (d : dict) : list (K * V) := d.

(** Truthiness: a dictionary is true when it has an entry. *)
Definition dict_truthy (d : dict) : bool :=
  match d with [] => false | _ => true end.
End Dict.
Arguments dict K V : clear implicits.

(** ** Page content

    What the element queries of the session return, as data. *)

(** An [<a>] element: its text and its [href] attribute. *)
Record Anchor : Type := { a_text : string; a_href : option string }.

(** The element a cell selector finds: its text, the [class] attribute of
    each [<i>] inside it and the [<a>] elements inside it, both in document
    order. *)
Record Element : Type :=
  { el_text : string;
    el_icons : list (option string);
    el_anchors : list Anchor }.

(** A [div.table__row]: entry [k-1] of [row_cells] is what
    [div.table__row-element:nth-of-type(k) > div] selects, [None] when
    nothing matches. *)
Record Row : Type := { row_cells : list (option Element) }.

(** [row.find_element(By.CSS_SELECTOR,
    "div.table__row-element:nth-of-type(k) > div")]. *)
Definition find_cell (row : Row) (k : nat) : result Element :=
  match k with
  | 0 => Raise NoSuchElementException
  | S i =>
      match nth_error (row_cells row) i with
      | Some (Some e) => Ok e
      | _ => Raise NoSuchElementException
      end
  end.

(** * Row parser *)

(** The field transforms of [parse_row_data]. *)
Definition str_transform (text : string) : result PyVal := Ok (VStr text).

Definition py_float (text : string) : result PyVal :=
  match Py.float_of_decimal text with
  | Some q => Ok (VFloat q)
  | None => Raise ValueError
  end.

Definition py_int (text : string) : result PyVal :=
  match Py.int_of_digits text with
  | Some n => Ok (VInt n)
  | None => Raise ValueError
  end.

Definition weight_transform (text : string) : result PyVal :=
  if Py.truthy text && Py.isdigit (Py.replace "." "" (Some 1) text)
  then py_float text
  else Ok VNone.

Definition availability_transform (text : string) : result PyVal :=
  if Py.isdigit text then py_int text else Ok VNone.

Definition lead_time_transform (text : string) : result PyVal :=
  if Py.isdigit text then py_int text else Ok VNone.

Definition price_transform (text : string) : result PyVal :=
  if Py.truthy text && Py.isdigit (Py.replace "." "" (Some 1) text)
  then py_float (Py.replace "$" "" None (Py.replace "," "" None text))
  else Ok VNone.

Definition catches_lookup_or_value (e : exn) : bool :=
  match e with
  | NoSuchElementException | ValueError => true
  | _ => false
  end.

(** The inner function [safe_extract_text(selector, transform_func)], with
    the cell position [k] for the selector. *)
Definition safe_extract_text (row : Row) (k : nat)
    (transform_func : string -> result PyVal) : result PyVal :=
  try_except
    (element ← find_cell row k;
     let text := Py.strip (el_text element) in
     let icon_nal :=
       match el_icons element with
       | class_attr :: _ =>
           match class_attr with
           | Some cls => Py.truthy cls && Py.contains "icon-nal" cls
           | None => false
           end
       | [] => false
       end in
     if icon_nal then Ok VMark
     else
       transformed_text ← transform_func text;
       match transformed_text with
       | VNone => Ok (VStr text)
       | VStr EmptyString => Ok (VStr text)
       | v => Ok v
       end)
    catches_lookup_or_value
    (fun _ => Ok VNone).

Definition parse_row_data (row : Row) (category keyword : string)
  : result (dict ApecData PyVal) :=
  let data : dict ApecData PyVal := [] in
  let data := dict_set KEYWORD (VStr keyword) data in
  let data := dict_set CATEGORY (VStr category) data in
  v ← safe_extract_text row 1 str_transform;
  let data := dict_set MANUFACTURER v data in
  v ← safe_extract_text row 2 str_transform;
  let data := dict_set ARTICLE v data in
  name_element ← find_cell row 3;
  let data :=
    match el_anchors name_element with
    | hyperlink :: _ =>
        let data := dict_set NAME (VStr (a_text hyperlink)) data in
        dict_set NAME_URL
          (match a_href hyperlink with Some u => VStr u | None => VNone end)
          data
    | [] => dict_set NAME (VStr (Py.strip (el_text name_element))) data
    end in
  v ← safe_extract_text row 4 weight_transform;
  let data := dict_set WEIGHT v data in
  v ← safe_extract_text row 5 availability_transform;
  let data := dict_set AVAILABILITY v data in
  v ← safe_extract_text row 6 lead_time_transform;
  let data := dict_set LEAD_TIME v data in
  v ← safe_extract_text row 7 str_transform;
  let data := dict_set INFORMATION v data in
  v ← safe_extract_text row 8 price_transform;
  let data := dict_set PRICE v data in
  Ok data.

(** * Output sink: [MyApecExcel] *)

(** [os.path.join(a, b)] (POSIX). *)
Definition os_path_join (a b : string) : string :=
  if Py.startswith "/" b then b
  else if String.eqb a "" then b
  else if bool_decide (Py.last_ch a = Some "/"%char) then a +:+ b
  else a +:+ "/" +:+ b.

(** What one worksheet cell holds: a header caption, or a value with its
    hyperlink target and whether it carries the currency format. *)
Inductive Cell : Type :=
| CHeader (text : string)
| CData (value : PyVal) (url : option PyVal) (is_currency : bool).

#[global] Instance PyVal_eq_dec : EqDecision PyVal.
Proof.
  intros x y. unfold Decision.
  decide equality; try apply Z.eq_dec; try apply string_dec.
  destruct q as [a b], q0 as [c d].
  destruct (Z.eq_dec a c), (Pos.eq_dec b d); subst; (by left) || (right; congruence).
Defined.

Record MyApecExcel : Type :=
  { output_file : string;
    worksheet : gmap (nat * nat) Cell;
    row_count : nat;
    table : option (nat * nat * nat * nat * list string) }.

(** Modelled from the spec: [Utils.get_enum_headers_row],
    [Utils.get_enum_col] and [Utils.get_enum_last_col] are not among the
    sources at hand.  Following the schema of section 3 (a header row, column
    order fixed by the schema) they are the captions of the members that have
    one, in declaration order, the [column] of a member, and the largest
    column. *)
Definition get_enum_headers_row : list string :=
  omap (fun k => header (ApecData_value k)) ApecData_members.

Definition get_enum_col (k : ApecData) : option nat := column (ApecData_value k).

Definition get_enum_last_col : nat :=
  foldr Nat.max 0 (omap get_enum_col ApecData_members).

(** [worksheet.write_row(row, col, values)] with the header format. *)
Fixpoint write_row (row col : nat) (values : list string)
    (ws : gmap (nat * nat) Cell) : gmap (nat * nat) Cell :=
  match values with
  | [] => ws
  | v :: vs => write_row row (S col) vs (<[(row, col) := CHeader v]> ws)
  end.

Definition add_headers (self : MyApecExcel) : MyApecExcel :=
  {| output_file := output_file self;
     worksheet := write_row 0 0 get_enum_headers_row (worksheet self);
     row_count := row_count self + 1;
     table := table self |}.

(** [MyApecExcel(name, output_dir)]: the workbook is held in memory
    ([in_memory]), nothing is written to [output_file] before [close]. *)
Definition MyApecExcel_init (name output_dir : string) : MyApecExcel :=
  add_headers
    {| output_file := os_path_join output_dir (name +:+ ".xlsx");
       worksheet := ∅;
       row_count := 0;
       table := None |}.

Definition fields_to_write : list (ApecData * option ApecData) :=
  [(KEYWORD, None); (CATEGORY, None); (MANUFACTURER, None); (ARTICLE, None);
   (NAME, Some NAME_URL); (WEIGHT, None); (AVAILABILITY, None);
   (LEAD_TIME, None); (INFORMATION, None); (PRICE, None)].

(** Modelled from the spec: [Utils.write_data] is not among the sources at
    hand.  Following the Output Sink contract ([appendRow(orderedValues,
    {hyperlinkColumn?, currencyColumns[]})], one writer lock) it stores
    [data.get(data_key)] at [(row, col)] while it holds [lock], with the value
    under [url_key] as hyperlink target and the currency format when
    [is_currency].  [cell_of] is the cell it stores, [write_cell] the store. *)
Definition cell_of (data : dict ApecData PyVal) (data_key : ApecData)
    (url_key : option ApecData) (is_currency : bool) : Cell :=
  CData (default VNone (dict_get data_key data))
        (url_key ≫= fun k => dict_get k data)
        is_currency.

Definition write_cell (row : nat) (col : option nat) (c : Cell)
    (ws : gmap (nat * nat) Cell) : gmap (nat * nat) Cell :=
  match col with
  | Some col => <[(row, col) := c]> ws
  | None => ws
  end.

Definition is_price (k : ApecData) : bool := bool_decide (k = PRICE).

(** [write_data_row] when no other thread touches the workbook: each call of
    [Utils.write_data] reads [self.row_count] for its row argument, and the
    counter is incremented after the last one. *)
Definition set_sheet (ws : gmap (nat * nat) Cell) (self : MyApecExcel)
  : MyApecExcel :=
  {| output_file := output_file self; worksheet := ws;
     row_count := row_count self; table := table self |}.

Definition set_row_count (n : nat) (self : MyApecExcel) : MyApecExcel :=
  {| output_file := output_file self; worksheet := worksheet self;
     row_count := n; table := table self |}.

Definition write_field (data : dict ApecData PyVal) (self : MyApecExcel)
    (f : ApecData * option ApecData) : MyApecExcel :=
  let '(data_key, url_key) := f in
  set_sheet
    (write_cell (row_count self) (get_enum_col data_key)
       (cell_of data data_key url_key (is_price data_key)) (worksheet self))
    self.

Definition incr_row_count (self : MyApecExcel) : MyApecExcel :=
  set_row_count (row_count self + 1) self.

Definition write_data_row (self : MyApecExcel) (data : dict ApecData PyVal)
  : MyApecExcel :=
  incr_row_count (foldl (write_field data) self fields_to_write).

(** [add_table]: the table spans rows [0 .. row_count - 1]. *)
Definition add_table (self : MyApecExcel) : MyApecExcel :=
  {| output_file := output_file self;
     worksheet := worksheet self;
     row_count := row_count self;
     table := Some (0, 0, row_count self - 1, get_enum_last_col,
                    get_enum_headers_row) |}.

(** * URLs: the parts of [urllib.parse] the extractor calls *)

Module Url.

(** [s.split(c, 1)]: the text before the first [c], and the text after it
    when [c] occurs. *)
Fixpoint split1 (c : ascii) (s : string) : string * option string :=
  match s with
  | EmptyString => (EmptyString, None)
  | String a s' =>
      if Ascii.eqb a c then (EmptyString, Some s')
      else let '(x, y) := split1 c s' in (String a x, y)
  end.

(** [s.split(c)] *)
Fixpoint split (c : ascii) (s : string) : list string :=
  match s with
  | EmptyString => [EmptyString]
  | String a s' =>
      if Ascii.eqb a c then EmptyString :: split c s'
      else
        match split c s' with
        | x :: xs => String a x :: xs
        | [] => [String a EmptyString]
        end
  end.

(** [urlparse(url).query] for a URL as a browser reports it: the fragment
    is cut at the first ['#'], the query is what follows the first ['?']
    of the rest. *)
Definition query (url : string) : string :=
  default EmptyString (split1 "?" (split1 "#" url).1).2.

Definition hex_val (c : ascii) : option nat :=
  let n := Py.code c in
  if ((48 <=? n) && (n <=? 57))%nat then Some (n - 48)
  else if ((65 <=? n) && (n <=? 70))%nat then Some (n - 55)
  else if ((97 <=? n) && (n <=? 102))%nat then Some (n - 87)
  else None.

(** [unquote]: every [%XX] escape becomes the character with that code.
    (For escapes of bytes below 0x80 this is Python's result; runs of
    higher bytes are UTF-8 sequences there and denote characters that may
    lie outside the code points of [string].) *)
Fixpoint unquote (s : string) : string :=
  match s with
  | EmptyString => EmptyString
  | String c s' =>
      match c, s' with
      | "%"%char, String a (String b rest) =>
          match hex_val a, hex_val b with
          | Some x, Some y =>
              String (ascii_of_nat (16 * x + y)) (unquote rest)
          | _, _ => String c (unquote s')
          end
      | _, _ => String c (unquote s')
      end
  end.

(** [parse_qsl(qs)] with its defaults: fields are separated by ['&'],
    a field without ['='] or with an empty value is dropped. *)
Definition parse_field (name_value : string) : option (string * string) :=
  match split1 "=" name_value with
  | (name, Some value) =>
      if Py.truthy value
      then Some (unquote (Py.replace "+" " " None name),
                 unquote (Py.replace "+" " " None value))
      else None
  | (_, None) => None
  end.

Definition parse_qsl (qs : string) : list (string * string) :=
  omap parse_field (split "&" qs).

(** [parse_qs(qs)]: the values of each name, in order of appearance. *)
Definition parse_qs (qs : string) : dict string (list string) :=
  foldl (fun (d : dict string (list string)) '(name, value) =>
           match dict_get name d with
           | Some vs => dict_set name (vs ++ [value]) d
           | None => dict_set name [value] d
           end)
        [] (parse_qsl qs).

End Url.

(** [query_params.get("mfr", ["unknown"])[0]] for the current URL. *)
Definition mfr_value_of (current_url : string) : result string :=
  let query_params := Url.parse_qs (Url.query current_url) in
  match default ["unknown"] (dict_get "mfr" query_params) with
  | v :: _ => Ok v
  | [] => Raise (OtherException "list index out of range")
  end.

(** * Pages and the environment *)

(** A [div.table__rows-group]: what reading the text of its
    [div.table__rows-title] yields, and its rows
    ([div.table__rows-list > div.table__row]) in document order. *)
Record Group : Type := { g_title : result string; g_rows : list Row }.

(** What a session shows after a navigation. *)
Record Page : Type :=
  { (** [driver.current_url] *)
    p_url : string;
    (** the elements matching [div.table__rows a], each with what
        [get_attribute("href")] yields on it *)
    p_links : list (result (option string));
    (** the text of the error label, when the page has one *)
    p_error_label : option string;
    (** the elements matching [div.table__rows-group] *)
    p_groups : list Group;
    (** [li.page-next]: its [class] attribute, or the exception raised when
        looking it up *)
    p_next : result (option string) }.

(** The outcome of one call of [workbook.close()]. *)
Inductive CloseOutcome : Type :=
| CloseOk
| CloseOSError (errno : nat) (msg : string)
| CloseException (e : exn).

Definition EACCES : nat := 13.

(** Everything outside the two source files: the site, the file system, the
    operator, and the helpers of [my_libs.utils] and [urllib] that are
    called but not defined there. *)
Record Env : Type :=
  { (** the discovery session: the page shown after its [n]-th navigation
        (counted from 0) when that navigation goes to [url], or the exception
        raised by [driver.get] *)
    discovery_get : nat -> string -> result Page;
    (** a worker session: [driver.get(url)] *)
    navigate : string -> result Page;
    (** a worker session: scrolling down and clicking the next-page control
        of a page *)
    click_next : Page -> result Page;
    (** [Utils.take_screenshot(path, driver)] on the page shown *)
    take_screenshot : string -> Page -> bool;
    (** [urllib.parse.urljoin(base, url)] *)
    urljoin : string -> option string -> result string;
    (** [Utils.build_apec_manufacturer_search(keyword)] *)
    build_apec_manufacturer_search : string -> string;
    (** [Utils.create_subfolder(base, name)] *)
    create_subfolder : string -> string -> string;
    (** the [n]-th call of [workbook.close()] (counted from 0) *)
    close_outcome : nat -> CloseOutcome }.

(** [WebDriverWait(driver, 10).until(presence_of_element_located(...))]:
    a [TimeoutException] when no element matches. *)
Definition wait_present {A} (matches : list A) : result () :=
  match matches with
  | [] => Raise TimeoutException
  | _ :: _ => Ok ()
  end.

(** * Session pool *)

(** Modelled from the spec: [Driver.DriverPool] ([my_libs.web_driver]) is not
    among the sources at hand.  Following section 4.1, the pool owns a fixed
    number of sessions; [acquire] hands out an available one and blocks
    ([None]) while there is none; [release] returns a session to the
    available ones. *)
Record DriverPool : Type := { pool_size : nat; available : list nat }.

Definition DriverPool_init (max_workers : nat) : DriverPool :=
  {| pool_size := max_workers; available := seq 0 max_workers |}.

Definition acquire (pool : DriverPool) : option (nat * DriverPool) :=
  match available pool with
  | driver :: rest =>
      Some (driver, {| pool_size := pool_size pool; available := rest |})
  | [] => None
  end.

Definition release (driver : nat) (pool : DriverPool) : DriverPool :=
  {| pool_size := pool_size pool; available := available pool ++ [driver] |}.

(** * Pagination extractor *)

Inductive Level : Type := WARNING | ERROR.

(** The calls a task makes on the session, the sink, the pool and the
    logger, in program order. *)
Inductive Event : Type :=
| EvLog (level : Level) (msg : string)
| EvAcquire (driver : nat)
| EvRelease (driver : nat)
| EvGet (url : string)
| EvFindGroups (current_url : string) (found : nat)
| EvScreenshot (path : string) (ok : bool)
| EvAppend (data : dict ApecData PyVal)
| EvClickNext
| EvQuit
| EvCreateWorkbook (file : string)
| EvSubmit (keyword url : string)
| EvSaveWorkbook
| EvClose (attempt : nat)
| EvPrompt (msg : string)
| EvCleanup.

Definition eligible_categories : list string :=
  ["Own stock warehouses"; "Requested article";
   "Superseded part for the requested article"].

(** One iteration of [for row in rows]. *)
Definition row_event (keyword category_name : string) (row : Row) : Event :=
  match parse_row_data row category_name keyword with
  | Ok data => EvAppend data
  | Raise e =>
      EvLog ERROR ("Error parsing row in " +:+ keyword +:+ "'s category '"
                   +:+ category_name +:+ "': " +:+ exn_str e)
  end.

(** [for group in groups].  [category_name] is the local variable of that
    name, [None] while it is unbound; it keeps its value across groups and
    pages.  The result is [Ok should_continue], or the exception that leaves
    the loop: the handler of a group formats [category_name], which raises
    [UnboundLocalError] while the variable is unbound. *)
Fixpoint groups_loop (keyword : string) (category_name : option string)
    (groups : list Group) : list Event * option string * result bool :=
  match groups with
  | [] => ([], category_name, Ok true)
  | group :: rest =>
      match g_title group with
      | Ok name =>
          if negb (Py.str_in_list name eligible_categories) then
            ([EvLog WARNING ("Aborting scraping for category: " +:+ name
                             +:+ ". Only specific categories are needed.")],
             Some name, Ok false)
          else
            let '(evs, cn, out) := groups_loop keyword (Some name) rest in
            (map (row_event keyword name) (g_rows group) ++ evs, cn, out)
      | Raise e =>
          match category_name with
          | None =>
              ([], None,
               Raise (OtherException
                        "cannot access local variable 'category_name'"))
          | Some name =>
              let '(evs, cn, out) := groups_loop keyword category_name rest in
              (EvLog ERROR ("Error processing group in " +:+ keyword
                            +:+ "'s category '" +:+ name +:+ "': " +:+ exn_str e)
               :: evs, cn, out)
          end
      end
  end.

Definition screenshot_name (keyword mfr_value : string) (page_num : nat)
  : string :=
  keyword +:+ " " +:+ mfr_value +:+ " page " +:+ Py.str_of_nat page_num +:+ ".png".

Definition is_disabled (class_attr : option string) : bool :=
  match class_attr with
  | Some cls => Py.truthy cls && Py.contains "disabled" cls
  | None => false
  end.

(** The handlers of the continuation check: [NoSuchElementException] ends
    the pagination silently, any other exception is logged. *)
Definition next_page_handler (e : exn) : list Event :=
  match e with
  | NoSuchElementException => []
  | _ => [EvLog ERROR ("Error clicking next page button: " +:+ exn_str e)]
  end.

(** The continuation check: [Some page'] when the next page has been loaded
    and the loop goes on. *)
Definition next_page (env : Env) (page : Page) : list Event * option Page :=
  match p_next page with
  | Raise e => (next_page_handler e, None)
  | Ok class_attr =>
      if is_disabled class_attr then ([], None)
      else
        match page' ← click_next env page;
              _ ← wait_present (p_groups page'); Ok page' with
        | Ok page' => ([EvClickNext], Some page')
        | Raise e => (EvClickNext :: next_page_handler e, None)
        end
  end.

(** [while should_continue]: [fuel] bounds the number of iterations, [None]
    means that the loop is still running when the fuel is used up. *)
Fixpoint scrape_loop (env : Env) (keyword screenshot_folder_path : string)
    (fuel : nat) (page : Page) (page_num : nat) (category_name : option string)
  : option (list Event * result ()) :=
  match fuel with
  | 0 => None
  | S fuel' =>
      let groups := p_groups page in
      let current_url := p_url page in
      match mfr_value_of current_url with
      | Raise e => Some ([EvFindGroups current_url (length groups)], Raise e)
      | Ok mfr_value =>
          let screenshot_path :=
            os_path_join screenshot_folder_path
              (screenshot_name keyword mfr_value page_num) in
          let ok := take_screenshot env screenshot_path page in
          let page_num := if ok then page_num + 1 else page_num in
          let head := [EvFindGroups current_url (length groups);
                       EvScreenshot screenshot_path ok] in
          let '(evs, category_name, out) :=
            groups_loop keyword category_name groups in
          match out with
          | Raise e => Some (head ++ evs, Raise e)
          | Ok false => Some (head ++ evs, Ok ())
          | Ok true =>
              match next_page env page with
              | (evs_next, None) => Some (head ++ evs ++ evs_next, Ok ())
              | (evs_next, Some page') =>
                  match scrape_loop env keyword screenshot_folder_path fuel'
                          page' page_num category_name with
                  | Some (evs', out') =>
                      Some (head ++ evs ++ evs_next ++ evs', out')
                  | None => None
                  end
              end
          end
      end
  end.

(** The [try] block of [scrape_manufacturer_data]. *)
Definition scrape_body (env : Env) (url keyword screenshot_folder_path : string)
    (fuel : nat) : option (list Event * result ()) :=
  match page ← navigate env url;
        _ ← wait_present (p_groups page); Ok page with
  | Raise e => Some ([EvGet url], Raise e)
  | Ok page =>
      match scrape_loop env keyword screenshot_folder_path fuel page 1 None with
      | Some (evs, out) => Some (EvGet url :: evs, out)
      | None => None
      end
  end.

(** [scrape_manufacturer_data]: the session is acquired before the [try],
    [except Exception] logs, [finally] releases.  [None]: the call has not
    returned (it waits for a session, or its loop is still running). *)
Definition scrape_manufacturer_data (env : Env)
    (url keyword screenshot_folder_path : string) (driver_pool : DriverPool)
    (fuel : nat) : option (DriverPool * list Event) :=
  match acquire driver_pool with
  | None => None
  | Some (driver, pool1) =>
      match scrape_body env url keyword screenshot_folder_path fuel with
      | None => None
      | Some (evs, out) =>
          let handler :=
            match out with
            | Ok _ => []
            | Raise e =>
                [EvLog ERROR ("Error scraping data from " +:+ url +:+ ": "
                              +:+ exn_str e)]
            end in
          Some (release driver pool1,
                EvAcquire driver :: evs ++ handler ++ [EvRelease driver])
      end
  end.

(** * Manufacturer discovery *)

(** [for row in rows] of [get_manufacturer_urls]: the links appended to
    [manufacturer_urls] and how the loop ends. *)
Fixpoint links_loop (env : Env) (rows : list (result (option string)))
    (manufacturer_urls : list string) : list string * result () :=
  match rows with
  | [] => (manufacturer_urls, Ok ())
  | row :: rest =>
      match row_link ← row; urljoin env "https://apecauto.com/" row_link with
      | Ok full_link => links_loop env rest (manufacturer_urls ++ [full_link])
      | Raise e => (manufacturer_urls, Raise e)
      end
  end.

(** The [try] block of [get_manufacturer_urls]: the list as it stands when
    the block is left, and whether it is left by an exception. *)
Definition discovery_body (env : Env) (n : nat) (keyword initial_url : string)
  : list string * list Event * result () :=
  match page ← discovery_get env n initial_url;
        _ ← wait_present (p_links page); Ok page with
  | Raise e => ([], [EvGet initial_url], Raise e)
  | Ok page =>
      if bool_decide (p_error_label page = Some "None") then
        ([], [EvGet initial_url;
              EvLog WARNING ("No results found for keyword '" +:+ keyword
                             +:+ "'.")], Ok ())
      else
        let current_url := p_url page in
        if negb (String.eqb initial_url current_url)
           && Py.contains "searchspareparts" current_url
        then ([current_url], [EvGet initial_url], Ok ())
        else
          let '(urls, out) := links_loop env (p_links page) [] in
          (urls, [EvGet initial_url], out)
  end.

(** [get_manufacturer_urls(driver, keyword)], for the [n]-th navigation of
    the discovery session. *)
Definition get_manufacturer_urls (env : Env) (n : nat) (keyword : string)
  : list string * list Event :=
  let initial_url := build_apec_manufacturer_search env keyword in
  let '(manufacturer_urls, evs, out) :=
    discovery_body env n keyword initial_url in
  match out with
  | Ok _ => (manufacturer_urls, evs)
  | Raise e =>
      (manufacturer_urls,
       evs ++ [EvLog ERROR ("Error extracting manufacturer links for keyword "
                            +:+ keyword +:+ ": " +:+ exn_str e)])
  end.

(** [for keyword in keywords] of [fetch_all_manufacturer_urls]; [n] counts
    the navigations made so far.  No call in the loop raises, so the
    [except] clause around it is never entered. *)
Fixpoint fetch_loop (env : Env) (n : nat) (keywords : list string)
    (manufacturer_urls_dict : dict string (list string))
  : dict string (list string) * list Event :=
  match keywords with
  | [] => (manufacturer_urls_dict, [])
  | keyword :: rest =>
      let keyword := Py.strip keyword in
      if Py.truthy keyword then
        let '(manufacturer_urls, evs) := get_manufacturer_urls env n keyword in
        let '(d, evs') :=
          fetch_loop env (S n) rest
            (dict_set keyword manufacturer_urls manufacturer_urls_dict) in
        (d, evs ++ evs')
      else
        let '(d, evs') := fetch_loop env n rest manufacturer_urls_dict in
        (d, EvLog WARNING "Empty search keyword encountered. Skipping..."
            :: evs')
  end.

Definition fetch_all_manufacturer_urls (env : Env) (keywords : list string)
  : dict string (list string) * list Event :=
  let '(d, evs) := fetch_loop env 0 keywords [] in
  (d, evs ++ [EvQuit]).

(** * Workers sharing the sink *)

(** The rows a task appends, in order: its calls of [write_data_row]. *)
Definition appends (tr : list Event) : list (dict ApecData PyVal) :=
  omap (fun ev => match ev with EvAppend data => Some data | _ => None end) tr.

(** Where a worker stands inside [write_data_row(data, lock)]; [fields] are
    the entries of [fields_to_write] the [for] loop has still to visit.  For
    each entry the worker evaluates the arguments of [Utils.write_data],
    among them [self.row_count] ([PcArgs]), then, inside [Utils.write_data],
    takes the lock ([PcLock]), stores the cell ([PcWrite]) and gives the lock
    back ([PcUnlock]).  When no entry is left, [self.row_count += 1] loads
    the counter ([PcArgs []]) and stores the sum ([PcIncStore]). *)
Inductive Pc : Type :=
| PcArgs (fields : list (ApecData * option ApecData))
| PcLock (f : ApecData * option ApecData)
         (fields : list (ApecData * option ApecData)) (row : nat)
| PcWrite (f : ApecData * option ApecData)
          (fields : list (ApecData * option ApecData)) (row : nat)
| PcUnlock (fields : list (ApecData * option ApecData))
| PcIncStore (v : nat).

(** A worker: the records it has still to append (the first one is being
    written) and its position in the current call. *)
Record Thread : Type :=
  { th_todo : list (dict ApecData PyVal); th_pc : Pc }.

(** One stored cell: who stored it, for which of its records (counted by
    the number of records left after it), and where. *)
Record Store : Type :=
  { st_tid : nat; st_left : nat; st_row : nat; st_col : option nat }.

Record Shared : Type :=
  { sink : MyApecExcel;
    lock : option nat;
    threads : list Thread;
    stores : list Store }.

(** One atomic step of worker [tid]; [None] when it cannot move (it has
    finished, or it waits for the lock). *)
Definition step (s : Shared) (tid : nat) : option Shared :=
  th ← threads s !! tid;
  match th_todo th with
  | [] => None
  | data :: rest =>
      let goto pc := <[tid := {| th_todo := th_todo th; th_pc := pc |}]>
                       (threads s) in
      match th_pc th with
      | PcArgs (f :: fields) =>
          Some {| sink := sink s; lock := lock s;
                  threads := goto (PcLock f fields (row_count (sink s)));
                  stores := stores s |}
      | PcArgs [] =>
          Some {| sink := sink s; lock := lock s;
                  threads := goto (PcIncStore (row_count (sink s)));
                  stores := stores s |}
      | PcLock f fields row =>
          match lock s with
          | Some _ => None
          | None =>
              Some {| sink := sink s; lock := Some tid;
                      threads := goto (PcWrite f fields row);
                      stores := stores s |}
          end
      | PcWrite (data_key, url_key) fields row =>
          Some {| sink :=
                    set_sheet
                      (write_cell row (get_enum_col data_key)
                         (cell_of data data_key url_key (is_price data_key))
                         (worksheet (sink s)))
                      (sink s);
                  lock := lock s;
                  threads := goto (PcUnlock fields);
                  stores :=
                    stores s ++
                    [{| st_tid := tid; st_left := length rest; st_row := row;
                        st_col := get_enum_col data_key |}] |}
      | PcUnlock fields =>
          Some {| sink := sink s; lock := None;
                  threads := goto (PcArgs fields);
                  stores := stores s |}
      | PcIncStore v =>
          Some {| sink := set_row_count (v + 1) (sink s);
                  lock := lock s;
                  threads :=
                    <[tid := {| th_todo := rest;
                                th_pc := PcArgs fields_to_write |}]>
                      (threads s);
                  stores := stores s |}
      end
  end.

(** The workers run as the schedule says; a worker that is named while it
    cannot move is passed over. *)
Fixpoint run (s : Shared) (schedule : list nat) : Shared :=
  match schedule with
  | [] => s
  | tid :: rest => run (default s (step s tid)) rest
  end.

Definition finished (th : Thread) : bool :=
  match th_todo th with [] => true | _ => false end.

Definition all_finished (s : Shared) : bool := forallb finished (threads s).

Definition spawn (records : list (dict ApecData PyVal)) : Thread :=
  {| th_todo := records; th_pc := PcArgs fields_to_write |}.

(** * Finalising the sink *)

(** The file [close] writes: the worksheet as it stands. *)
Record Artifact : Type :=
  { art_file : string;
    art_sheet : gmap (nat * nat) Cell;
    art_rows : nat;
    art_table : option (nat * nat * nat * nat * list string) }.

Definition artifact_of (self : MyApecExcel) : Artifact :=
  {| art_file := output_file self;
     art_sheet := worksheet self;
     art_rows := row_count self;
     art_table := table self |}.

(** The handlers of the retry loop: the record logged and the prompt shown
    before the next attempt. *)
Definition close_handler (o : CloseOutcome) : list Event :=
  match o with
  | CloseOk => []
  | CloseOSError errno msg =>
      if decide (errno = EACCES) then
        [EvLog ERROR "PermissionError: Please close the Excel file if it is open and press Enter to retry.";
         EvPrompt "Please close the Excel file and press Enter to retry..."]
      else
        [EvLog ERROR ("An OSError occurred while saving the workbook: " +:+ msg);
         EvPrompt "An unexpected error occurred. Press Enter to retry..."]
  | CloseException e =>
      [EvLog ERROR ("An unexpected error occurred while saving the workbook: "
                    +:+ exn_str e);
       EvPrompt "An unexpected error occurred. Press Enter to retry..."]
  end.

(** [while True] of [save_workbook], from attempt [n] on; [None]: still
    retrying when the fuel is used up. *)
Fixpoint close_loop (env : Env) (fuel n : nat) (self : MyApecExcel)
  : option (list Event * Artifact) :=
  match fuel with
  | 0 => None
  | S fuel' =>
      match close_outcome env n with
      | CloseOk => Some ([EvClose n], artifact_of self)
      | o =>
          '(evs, a) ← close_loop env fuel' (S n) self;
          Some (EvClose n :: close_handler o ++ evs, a)
      end
  end.

Definition save_workbook (env : Env) (fuel : nat) (self : MyApecExcel)
  : option (list Event * Artifact) :=
  '(evs, a) ← close_loop env fuel 0 (add_table self);
  Some (EvSaveWorkbook :: evs, a).

(** * Orchestrator *)

(** What bounds one run of the model: the iterations granted to each task's
    loop, the order in which the workers move, and the attempts granted to
    the final [close]. *)
Record Schedule : Type :=
  { task_fuel : nat; interleaving : list nat; close_fuel : nat }.

(** The outcome of a run: the calls of the main thread, the calls of each
    task, the shared state when the workers have been joined, and the files
    written. *)
Record Run : Type :=
  { run_main : list Event;
    run_tasks : list (list Event);
    run_joined : option Shared;
    run_files : list Artifact }.

Definition max_workers : nat := 3.

(** The (keyword, URL) pairs in submission order. *)
Definition fan_out (manufacturer_urls_dict : dict string (list string))
  : list (string * string) :=
  flat_map (fun '(keyword, manufacturer_urls) =>
              map (fun url => (keyword, url)) manufacturer_urls)
           (dict_items manufacturer_urls_dict).

(** The calls of all tasks, [None] when one of them does not return.  Each
    worker finds a session: there are as many sessions as workers. *)
Fixpoint run_tasks_of (env : Env) (fuel : nat) (folder : string)
    (tasks : list (string * string)) : option (list (list Event)) :=
  match tasks with
  | [] => Some []
  | (keyword, url) :: rest =>
      '(_, tr) ← scrape_manufacturer_data env url keyword folder
                   (DriverPool_init max_workers) fuel;
      trs ← run_tasks_of env fuel folder rest;
      Some (tr :: trs)
  end.

(** [process_and_scrape_manufacturer_data]: [None] when the call does not
    return under the schedule (a task or the final [close] is still running,
    or the workers have not all finished). *)
Definition process_and_scrape_manufacturer_data (env : Env) (sch : Schedule)
    (manufacturer_urls_dict : dict string (list string)) (output_dir : string)
  : option Run :=
  let workbook := MyApecExcel_init "APEC Auto Data" output_dir in
  let screenshot_folder_path :=
    create_subfolder env output_dir "APEC Screenshots" in
  let tasks := fan_out manufacturer_urls_dict in
  traces ← run_tasks_of env (task_fuel sch) screenshot_folder_path tasks;
  let s0 := {| sink := workbook; lock := None;
               threads := map (fun tr => spawn (appends tr)) traces;
               stores := [] |} in
  let s1 := run s0 (interleaving sch) in
  if all_finished s1 then
    '(evs, a) ← save_workbook env (close_fuel sch) (sink s1);
    Some {| run_main :=
              EvCreateWorkbook (output_file workbook)
              :: map (fun '(keyword, url) => EvSubmit keyword url) tasks
              ++ evs ++ [EvCleanup];
            run_tasks := traces;
            run_joined := Some s1;
            run_files := [a] |}
  else None.

Definition process_keywords (env : Env) (sch : Schedule)
    (keywords : list string) (output_dir : string) : option Run :=
  match keywords with
  | [] =>
      Some {| run_main :=
                [EvLog WARNING "No keywords provided. Skipping data fetch."];
              run_tasks := []; run_joined := None; run_files := [] |}
  | _ =>
      let '(manufacturer_urls_dict, evs) :=
        fetch_all_manufacturer_urls env keywords in
      if dict_truthy manufacturer_urls_dict then
        r ← process_and_scrape_manufacturer_data env sch
              manufacturer_urls_dict output_dir;
        Some {| run_main := evs ++ run_main r;
                run_tasks := run_tasks r;
                run_joined := run_joined r;
                run_files := run_files r |}
      else
        Some {| run_main := evs; run_tasks := []; run_joined := None;
                run_files := [] |}
  end.

(** * Observations on traces and texts

    The notions the properties below are stated with. *)

(** A character that can pass the guard of the numeric transforms. *)
Definition digit_or_dot (c : ascii) : bool :=
  Py.isdigit_ch c || Ascii.eqb c ".".


(** A transform that raises nothing but [ValueError]. *)
Definition only_value_errors (f : string → result PyVal) : Prop :=
  ∀ text e, f text = Raise e → e = ValueError.


(** The pages a trace visits and the number of times it asks for a next
    page. *)
Definition visits (tr : list Event) : list string :=
  omap (fun ev => match ev with EvFindGroups u _ => Some u | _ => None end) tr.

#[global] Instance Level_eq_dec : EqDecision Level.
Proof. solve_decision. Defined.

#[global] Instance dict_eq_dec {K V} `{EqDecision K, EqDecision V} :
  EqDecision (dict K V).
Proof. unfold dict. apply _. Defined.

#[global] Instance Event_eq_dec : EqDecision Event.
Proof. solve_decision. Defined.

Definition clicks (tr : list Event) : nat :=
  length (filter (fun ev => ev = EvClickNext) tr).


(** A group loop only logs and appends. *)
Definition sink_or_log (ev : Event) : bool :=
  match ev with EvLog _ _ | EvAppend _ => true | _ => false end.


(** The records parsed from a group, in document order. *)
Definition parsed_records (keyword : string) (g : Group)
  : list (dict ApecData PyVal) :=
  match g_title g with
  | Ok name =>
      omap (fun row => match parse_row_data row name keyword with
                       | Ok data => Some data
                       | Raise _ => None
                       end) (g_rows g)
  | Raise _ => []
  end.

Definition titled_eligible (g : Group) : Prop :=
  ∃ name, g_title g = Ok name ∧ Py.str_in_list name eligible_categories = true.


(** The sink after the calls of a trace, when no other worker touches it. *)
Definition replay (self : MyApecExcel) (tr : list Event) : MyApecExcel :=
  foldl write_data_row self (appends tr).

(** The cells of a row of the sheet, column by column, and the cells a record
    is written as. *)
Definition sheet_row (ws : gmap (nat * nat) Cell) (row : nat)
  : list (option Cell) :=
  map (fun col => ws !! (row, col)) (seq 0 (S get_enum_last_col)).

Definition record_cells (data : dict ApecData PyVal) : list (option Cell) :=
  map (fun '(data_key, url_key) =>
         Some (cell_of data data_key url_key (is_price data_key)))
      fields_to_write.

Definition header_cells : list (option Cell) :=
  map (fun h => Some (CHeader h)) get_enum_headers_row.

(** The page counter after a capture: the code increments it when the
    capture succeeded; [bump_always] increments it on every page. *)
Definition bump_if_captured (ok : bool) (page_num : nat) : nat :=
  if ok then page_num + 1 else page_num.

Definition bump_always (ok : bool) (page_num : nat) : nat := page_num + 1.

(** The file a capture of the page at [current_url] goes to when the counter
    stands at [page_num]. *)
Definition capture_path (folder keyword current_url : string) (page_num : nat)
  : option string :=
  match mfr_value_of current_url with
  | Ok mfr_value =>
      Some (os_path_join folder (screenshot_name keyword mfr_value page_num))
  | Raise _ => None
  end.

(** A trace captures its pages one by one: each visit of a page is followed,
    before anything else, by one capture attempt whose file is named after
    the keyword, the [mfr] parameter of the page's URL and the counter, the
    counter moves on as [bump] says, and there is no other capture.
    [pending] is the URL of a page visited and not yet captured. *)
Fixpoint captures_follow (bump : bool → nat → nat) (folder keyword : string)
    (pending : option string) (page_num : nat) (tr : list Event) : bool :=
  match tr with
  | [] => bool_decide (pending = None)
  | ev :: tr' =>
      match pending, ev with
      | Some current_url, EvScreenshot path ok =>
          bool_decide (capture_path folder keyword current_url page_num
                       = Some path)
          && captures_follow bump folder keyword None (bump ok page_num) tr'
      | Some _, _ => false
      | None, EvFindGroups current_url _ =>
          captures_follow bump folder keyword (Some current_url) page_num tr'
      | None, EvScreenshot _ _ => false
      | None, _ => captures_follow bump folder keyword None page_num tr'
      end
  end.

(** The capture attempts of a trace. *)
Definition captures (tr : list Event) : list (string * bool) :=
  omap (fun ev => match ev with
                  | EvScreenshot path ok => Some (path, ok)
                  | _ => None
                  end) tr.

(** Neither a visit nor a capture. *)
Definition no_capture (ev : Event) : bool :=
  match ev with EvFindGroups _ _ | EvScreenshot _ _ => false | _ => true end.

(** The keywords that are searched: trimmed, the empty ones left out, as
    often and in the order they occur. *)
Definition searched (keywords : list string) : list string :=
  List.filter Py.truthy (map Py.strip keywords).

(** The navigations of a trace. *)
Definition gets (tr : list Event) : list string :=
  omap (fun ev => match ev with EvGet u => Some u | _ => None end) tr.

(** The warnings and errors of a trace. *)
Definition logged (level : Level) (tr : list Event) : list string :=
  omap (fun ev => match ev with
                  | EvLog l msg => if decide (l = level) then Some msg else None
                  | _ => None
                  end) tr.

(** What one listing link resolves to: its [href] read, then joined with
    the base of the site. *)
Definition resolve_link (env : Env) (row : result (option string))
  : result string :=
  row_link ← row; urljoin env "https://apecauto.com/" row_link.

(** The steps of one call of [write_data_row], and the schedule in which
    the workers run one after another, worker [tid] first, each for as many
    calls as [counts] says. *)
Definition steps_per_record : nat := 4 * length fields_to_write + 2.

Fixpoint one_after_another (tid : nat) (counts : list nat) : list nat :=
  match counts with
  | [] => []
  | k :: counts' =>
      replicate (steps_per_record * k) tid ++ one_after_another (S tid) counts'
  end.

(** What holds of the shared state however the workers are scheduled: the
    counter and every row a worker has read from it are at least 1, the
    header row and the file name are as [MyApecExcel] set them up, and no
    table has been added yet. *)
Definition pc_row_ok (pc : Pc) : Prop :=
  match pc with
  | PcLock _ _ row | PcWrite _ _ row => (1 ≤ row)%nat
  | PcIncStore v => (1 ≤ v)%nat
  | _ => True
  end.

Record header_kept (file : string) (s : Shared) : Prop :=
  { hk_count : (1 ≤ row_count (sink s))%nat;
    hk_rows : Forall (fun th => pc_row_ok (th_pc th)) (threads s);
    hk_header : sheet_row (worksheet (sink s)) 0 = header_cells;
    hk_file : output_file (sink s) = file }.

(** The lock is held by the worker that is storing a cell, and by no one
    else. *)
Definition in_write_data (pc : Pc) : bool :=
  match pc with PcWrite _ _ _ | PcUnlock _ => true | _ => false end.

Definition lock_respected (s : Shared) : Prop :=
  ∀ tid th, threads s !! tid = Some th →
            (in_write_data (th_pc th) = true ↔ lock s = Some tid).

(** The attempts of [save_workbook] that fail for lack of permission, up to
    attempt [n]. *)
Definition permission_retries (n : nat) : list Event :=
  flat_map (fun k =>
              [EvClose k;
               EvLog ERROR "PermissionError: Please close the Excel file if it is open and press Enter to retry.";
               EvPrompt "Please close the Excel file and press Enter to retry..."])
           (seq 0 n).

(** How often a trace calls [save_workbook], and how often it warns about an
    empty keyword. *)
Definition saves (tr : list Event) : nat :=
  length (filter (fun ev => ev = EvSaveWorkbook) tr).

Definition skip_warning : Event :=
  EvLog WARNING "Empty search keyword encountered. Skipping...".

Definition skips (tr : list Event) : nat :=
  length (filter (fun ev => ev = skip_warning) tr).

(** The keywords that are empty once trimmed. *)
Definition blank (keywords : list string) : list string :=
  List.filter (fun k => negb (Py.truthy (Py.strip k))) keywords.

(** The schedule under which a run is known to return: every worker runs
    alone, for as many records as its task appends. *)
Definition settled (fuel : nat) (traces : list (list Event)) (attempts : nat)
  : Schedule :=
  {| task_fuel := fuel;
     interleaving :=
       one_after_another 0 (map (fun tr => length (appends tr)) traces);
     close_fuel := attempts |}.


(** The first [<i>] of a cell carries the class [icon-nal]. *)
Definition first_icon_nal (element : Element) : bool :=
  match el_icons element with
  | Some cls :: _ => Py.contains "icon-nal" cls
  | _ => false
  end.


(** How often a trace prompts the operator. *)
Definition prompts (tr : list Event) : nat :=
  length (omap (fun ev => match ev with EvPrompt msg => Some msg | _ => None end)
            tr).

(** * A small site, for concrete runs *)

Module Example.

Definition text_cell (s : string) : option Element :=
  Some {| el_text := s; el_icons := []; el_anchors := [] |}.

(** A row with all eight cells; [price] is the text of the price cell. *)
Definition row_with_price (price : string) : Row :=
  {| row_cells :=
       [text_cell "ACME"; text_cell "A-1"; text_cell " Brake pad ";
        text_cell "1.5"; text_cell "12"; text_cell "3";
        text_cell "info"; text_cell price] |}.

(** A row whose name cell holds a link and whose availability cell carries
    the [icon-nal] icon. *)
Definition row_with_link : Row :=
  {| row_cells :=
       [text_cell "ACME"; text_cell "A-1";
        Some {| el_text := " Brake pad ";
                el_icons := [];
                el_anchors :=
                  [{| a_text := "Brake pad ";
                      a_href := Some "https://apecauto.com/part/A-1" |}] |};
        text_cell "1.5";
        Some {| el_text := "";
                el_icons := [Some "icon icon-nal"; None];
                el_anchors := [] |};
        text_cell "3"; text_cell "info"; text_cell "12,5"] |}.

(** A row whose third cell (the name) is missing. *)
Definition row_without_name : Row :=
  {| row_cells := [text_cell "ACME"; text_cell "A-1"] |}.

Definition group (title : string) (rows : list Row) : Group :=
  {| g_title := Ok title; g_rows := rows |}.

Definition listing (url : string) (groups : list Group)
    (next : result (option string)) : Page :=
  {| p_url := url; p_links := []; p_error_label := None;
     p_groups := groups; p_next := next |}.

Definition url_a : string := "https://apecauto.com/searchspareparts.aspx?pn=A1&mfr=ACME".
Definition url_a2 : string := "https://apecauto.com/searchspareparts.aspx?pn=A1&mfr=ACME&page=2".
Definition url_b : string := "https://apecauto.com/searchspareparts.aspx?pn=A1".

(** Manufacturer A: a first page with an eligible group, a second page
    with an eligible group, then a group outside the allow-list, then
    another eligible group. *)
Definition group_requested : Group :=
  group "Requested article" [row_with_price "7.25"].
Definition group_related : Group :=
  group "Related Products" [row_with_price "1"].
Definition group_own : Group :=
  group "Own stock warehouses" [row_with_price "2"].

Definition page_a2 : Page :=
  listing url_a2 [group_requested; group_related; group_own]
    (Ok (Some "page-next")).

Definition page_a1 : Page :=
  listing url_a
    [group "Own stock warehouses"
       [row_with_price "$1,234.50"; row_without_name; row_with_price "N/A"]]
    (Ok (Some "page-next")).

(** A page whose first group has no title element, in front of an eligible
    group. *)
Definition url_c : string := "https://apecauto.com/searchspareparts.aspx?pn=C3&mfr=CORE".

Definition group_untitled : Group :=
  {| g_title := Raise NoSuchElementException;
     g_rows := [row_with_price "9"] |}.

Definition page_c : Page :=
  listing url_c [group_untitled; group_own] (Ok None).

(** Manufacturer B: no group ever appears. *)
Definition page_b : Page := listing url_b [] (Ok None).

Definition search_url (keyword : string) : string :=
  "https://apecauto.com/search?pn=" +:+ keyword.

(** The result page of a search: two manufacturer links. *)
Definition page_search (keyword : string) : Page :=
  {| p_url := search_url keyword;
     p_links := [Ok (Some url_a); Ok (Some url_b)];
     p_error_label := None; p_groups := []; p_next := Ok None |}.

Definition env : Env :=
  {| discovery_get := fun _ url =>
       if String.eqb url (search_url "brake pad")
       then Ok (page_search "brake pad")
       else Raise (OtherException "net::ERR_NAME_NOT_RESOLVED");
     navigate := fun url =>
       if String.eqb url url_a then Ok page_a1
       else if String.eqb url url_b then Ok page_b
       else Raise (OtherException "net::ERR_NAME_NOT_RESOLVED");
     click_next := fun page =>
       if String.eqb (p_url page) url_a then Ok page_a2
       else Raise (OtherException "element click intercepted");
     take_screenshot := fun _ _ => true;
     urljoin := fun base url => Ok (default base url);
     build_apec_manufacturer_search := search_url;
     create_subfolder := os_path_join;
     close_outcome := fun n =>
       if decide (n < 2) then CloseOSError EACCES "Permission denied"
       else CloseOk |}.

(** The same site with the page of manufacturer C. *)
Definition env_c : Env :=
  {| discovery_get := discovery_get env;
     navigate := fun url => if String.eqb url url_c then Ok page_c
                            else navigate env url;
     click_next := click_next env;
     take_screenshot := take_screenshot env;
     urljoin := urljoin env;
     build_apec_manufacturer_search := build_apec_manufacturer_search env;
     create_subfolder := create_subfolder env;
     close_outcome := close_outcome env |}.

(** The same site when the capture of the first page of manufacturer A
    fails. *)
Definition env_capture_fails : Env :=
  {| discovery_get := discovery_get env;
     navigate := navigate env;
     click_next := click_next env;
     take_screenshot := fun _ page => negb (String.eqb (p_url page) url_a);
     urljoin := urljoin env;
     build_apec_manufacturer_search := build_apec_manufacturer_search env;
     create_subfolder := create_subfolder env;
     close_outcome := close_outcome env |}.

(** The same site when the second link of the listing goes stale while its
    [href] is read. *)
Definition page_search_stale (keyword : string) : Page :=
  {| p_url := search_url keyword;
     p_links := [Ok (Some url_a);
                 Raise (OtherException "stale element reference")];
     p_error_label := None; p_groups := []; p_next := Ok None |}.

Definition env_stale : Env :=
  {| discovery_get := fun _ url =>
       if String.eqb url (search_url "brake pad")
       then Ok (page_search_stale "brake pad")
       else Raise (OtherException "net::ERR_NAME_NOT_RESOLVED");
     navigate := navigate env;
     click_next := click_next env;
     take_screenshot := take_screenshot env;
     urljoin := urljoin env;
     build_apec_manufacturer_search := build_apec_manufacturer_search env;
     create_subfolder := create_subfolder env;
     close_outcome := close_outcome env |}.

(** Two workers, each with one record to append to a fresh sink, and a
    schedule in which the second writes its cells before the first has
    incremented the counter. *)
Definition record_1 : dict ApecData PyVal :=
  [(KEYWORD, VStr "brake pad"); (CATEGORY, VStr "Own stock warehouses");
   (MANUFACTURER, VStr "ACME"); (ARTICLE, VStr "A-1");
   (NAME, VStr "Brake pad"); (WEIGHT, VFloat (3 # 2));
   (AVAILABILITY, VInt 12); (LEAD_TIME, VInt 3);
   (INFORMATION, VStr "info"); (PRICE, VFloat (29 # 4))].

Definition record_2 : dict ApecData PyVal :=
  [(KEYWORD, VStr "oil filter"); (CATEGORY, VStr "Requested article");
   (MANUFACTURER, VStr "BOLT"); (ARTICLE, VStr "B-2");
   (NAME, VStr "Oil filter"); (WEIGHT, VNone);
   (AVAILABILITY, VInt 1); (LEAD_TIME, VInt 7);
   (INFORMATION, VStr ""); (PRICE, VFloat (5 # 1))].

Definition two_workers : Shared :=
  {| sink := MyApecExcel_init "APEC Auto Data" "out";
     lock := None;
     threads := [spawn [record_1]; spawn [record_2]];
     stores := [] |}.

Definition race : list nat :=
  replicate 40 0 ++ replicate 40 1 ++ [0; 0] ++ [1; 1].

(** Each worker runs alone, one after the other: the first task appends
    three records, the second none. *)
Definition sch : Schedule :=
  {| task_fuel := 5; interleaving := one_after_another 0 [3; 0];
     close_fuel := 5 |}.

End Example.

(** * Properties *)

(** ** Dictionaries *)

Section DictFacts.
Context {K V : Type} `{EqDecision K}.
Implicit Types (d : dict K V) (k : K) (v : V).

Lemma dict_get_set_eq d k v : dict_get k (dict_set k v d) = Some v.
Proof.
  induction d as [|[k' v'] d IH]; simpl.
  - by rewrite decide_True.
  - destruct (decide (k = k')) as [->|Hne]; simpl.
    + by rewrite decide_True.
    + by rewrite decide_False.
Qed.

Lemma dict_get_set_ne d k k' v :
  k ≠ k' → dict_get k (dict_set k' v d) = dict_get k d.
Proof.
  intros Hne. induction d as [|[k2 v2] d IH]; simpl.
  - by rewrite decide_False.
  - destruct (decide (k' = k2)) as [->|Hne2]; simpl.
    + by rewrite !decide_False.
    + destruct (decide (k = k2)); [done | apply IH].
Qed.

Lemma dict_get_Some_keys d k v : dict_get k d = Some v → k ∈ dict_keys d.
Proof.
  induction d as [|[k' v'] d IH]; simpl; [done|].
  destruct (decide (k = k')) as [->|Hne]; intros Hg.
  - apply list_elem_of_here.
  - apply list_elem_of_further, IH, Hg.
Qed.

Lemma dict_keys_get d k : k ∈ dict_keys d → is_Some (dict_get k d).
Proof.
  induction d as [|[k' v'] d IH]; simpl.
  - intros Hin. by apply elem_of_nil in Hin.
  - intros Hin. destruct (decide (k = k')) as [->|Hne]; [by eexists|].
    apply elem_of_cons in Hin as [?|Hin]; [done | by apply IH].
Qed.

Lemma dict_keys_set d k v :
  dict_keys (dict_set k v d)
  = if bool_decide (k ∈ dict_keys d) then dict_keys d else dict_keys d ++ [k].
Proof.
  induction d as [|[k' v'] d IH].
  - case_bool_decide as Hin; [by apply elem_of_nil in Hin | done].
  - cbn [dict_set]. destruct (decide (k = k')) as [->|Hne].
    + clear IH. case_bool_decide as Hin; [reflexivity|]. exfalso. apply Hin.
      apply list_elem_of_here.
    + change (dict_keys ((k', v') :: dict_set k v d))
        with (k' :: dict_keys (dict_set k v d)).
      change (dict_keys ((k', v') :: d)) with (k' :: dict_keys d).
      rewrite IH. repeat case_bool_decide; try reflexivity.
      * exfalso. rewrite elem_of_cons in *. tauto.
      * exfalso. rewrite elem_of_cons in *. tauto.
Qed.

Lemma dict_keys_set_NoDup d k v :
  NoDup (dict_keys d) → NoDup (dict_keys (dict_set k v d)).
Proof.
  intros Hnd. rewrite dict_keys_set.
  destruct (bool_decide (k ∈ dict_keys d)) eqn:Hb; [done|].
  apply bool_decide_eq_false_1 in Hb.
  apply NoDup_app. split; [done|]. split.
  - intros x Hx Hx'. apply list_elem_of_singleton in Hx'. by subst.
  - apply NoDup_singleton.
Qed.

Lemma dict_keys_set_elem d k k' v :
  k ∈ dict_keys (dict_set k' v d) ↔ k = k' ∨ k ∈ dict_keys d.
Proof.
  rewrite dict_keys_set.
  destruct (bool_decide (k' ∈ dict_keys d)) eqn:Hb.
  - apply bool_decide_eq_true_1 in Hb. split; [by right|].
    intros [->|?]; done.
  - rewrite elem_of_app, list_elem_of_singleton. tauto.
Qed.
End DictFacts.

(** ** Row parser *)

Lemma replace_zero old new s : Py.replace old new (Some 0) s = s.
Proof.
  induction s as [|c s IH]; simpl; [done|].
  destruct (Ascii.eqb c old); [done | by rewrite IH].
Qed.

Lemma replace_absent p old new s :
  Py.forallb_str p s = true → p old = false → Py.replace old new None s = s.
Proof.
  intros Hall Hold. induction s as [|c s IH]; simpl in *; [done|].
  apply andb_true_iff in Hall as [Hc Hs].
  destruct (Ascii.eqb_spec c old) as [->|Hne]; [congruence|].
  by rewrite IH.
Qed.

(** What passes the guard of the numeric transforms consists of digits and
    dots. *)
Lemma guard_digits_or_dots count s :
  Py.forallb_str Py.isdigit_ch (Py.replace "." "" count s) = true →
  Py.forallb_str digit_or_dot s = true.
Proof.
  revert count. induction s as [|c s IH]; intros count; simpl; [done|].
  unfold digit_or_dot at 1.
  destruct (Ascii.eqb_spec c ".") as [->|Hne].
  - rewrite orb_true_r. simpl. destruct count as [[|k]|]; simpl.
    + intros H. discriminate H.
    + apply IH.
    + apply IH.
  - simpl. intros H. apply andb_true_iff in H as [Hc Hs].
    rewrite Hc. simpl. by apply (IH count).
Qed.

Lemma isdigit_forallb s :
  Py.isdigit s = true → Py.forallb_str Py.isdigit_ch s = true.
Proof. by destruct s. Qed.

(** The two [replace] calls of [price_transform] never change the text they
    are applied to: the guard in front of them only lets through texts
    without [","] and ["$"].  The price transform is the weight transform. *)
Lemma price_transform_is_weight_transform text :
  price_transform text = weight_transform text.
Proof.
  unfold price_transform, weight_transform.
  destruct (Py.truthy text && Py.isdigit (Py.replace "." "" (Some 1) text))
    eqn:Hguard; [|done].
  apply andb_true_iff in Hguard as [_ Hd].
  apply isdigit_forallb, guard_digits_or_dots in Hd.
  rewrite (replace_absent digit_or_dot "," "" text Hd eq_refl).
  by rewrite (replace_absent digit_or_dot "$" "" text Hd eq_refl).
Qed.

Lemma py_float_errors text e : py_float text = Raise e → e = ValueError.
Proof. unfold py_float. destruct (Py.float_of_decimal text); congruence. Qed.

Lemma py_int_errors text e : py_int text = Raise e → e = ValueError.
Proof. unfold py_int. destruct (Py.int_of_digits text); congruence. Qed.

Lemma str_transform_errors : only_value_errors str_transform.
Proof. intros text e. unfold str_transform. congruence. Qed.

Lemma weight_transform_errors : only_value_errors weight_transform.
Proof.
  intros text e. unfold weight_transform.
  destruct (_ && _); [apply py_float_errors | congruence].
Qed.

Lemma availability_transform_errors : only_value_errors availability_transform.
Proof.
  intros text e. unfold availability_transform.
  destruct (Py.isdigit text); [apply py_int_errors | congruence].
Qed.

Lemma lead_time_transform_errors : only_value_errors lead_time_transform.
Proof.
  intros text e. unfold lead_time_transform.
  destruct (Py.isdigit text); [apply py_int_errors | congruence].
Qed.

Lemma price_transform_errors : only_value_errors price_transform.
Proof.
  intros text e. rewrite price_transform_is_weight_transform.
  apply weight_transform_errors.
Qed.

(** [safe_extract_text] returns a value whatever the row looks like. *)
Lemma safe_extract_text_returns row k f :
  only_value_errors f → ∃ v, safe_extract_text row k f = Ok v.
Proof.
  intros Hf. unfold safe_extract_text.
  destruct (find_cell row k) as [element|e] eqn:Hfind; simpl.
  - destruct (match el_icons element with [] => false | _ => _ end);
      simpl; [by eexists|].
    destruct (f (Py.strip (el_text element))) as [v|e] eqn:Hv; simpl.
    + destruct v as [| [|] | | |]; by eexists.
    + rewrite (Hf _ _ Hv). simpl. by eexists.
  - unfold find_cell in Hfind.
    destruct k as [|i]; [|destruct (nth_error _ i) as [[?|]|]];
      simplify_eq; simpl; by eexists.
Qed.

(** A cell that is not found gives an absent value. *)
Lemma safe_extract_text_missing row k f e :
  find_cell row k = Raise e → safe_extract_text row k f = Ok VNone.
Proof.
  intros Hfind. unfold safe_extract_text. rewrite Hfind. simpl.
  unfold find_cell in Hfind.
  destruct k as [|i]; [|destruct (nth_error _ i) as [[?|]|]];
    by simplify_eq.
Qed.

Ltac unfold_bind := unfold mbind, result_bind, rbind in *.

(** The record [parse_row_data] returns carries, under [PRICE], what
    [safe_extract_text] gives for the eighth cell. *)
Lemma parse_row_data_price row category keyword data :
  parse_row_data row category keyword = Ok data →
  ∃ v, safe_extract_text row 8 price_transform = Ok v
       ∧ dict_get PRICE data = Some v.
Proof.
  unfold parse_row_data. unfold_bind. intros H.
  repeat match type of H with
         | match ?m with Ok _ => _ | Raise _ => _ end = _ =>
             destruct m; [|discriminate H]
         end.
  injection H as <-. eexists. split; [reflexivity|].
  apply dict_get_set_eq.
Qed.

(** When the name cell is there, a record is returned. *)
Lemma parse_row_data_returns row category keyword name_element :
  find_cell row 3 = Ok name_element →
  ∃ data, parse_row_data row category keyword = Ok data.
Proof.
  intros Hname. unfold parse_row_data. unfold_bind.
  destruct (safe_extract_text_returns row 1 _ str_transform_errors) as [? ->].
  destruct (safe_extract_text_returns row 2 _ str_transform_errors) as [? ->].
  rewrite Hname.
  destruct (safe_extract_text_returns row 4 _ weight_transform_errors) as [? ->].
  destruct (safe_extract_text_returns row 5 _ availability_transform_errors)
    as [? ->].
  destruct (safe_extract_text_returns row 6 _ lead_time_transform_errors)
    as [? ->].
  destruct (safe_extract_text_returns row 7 _ str_transform_errors) as [? ->].
  destruct (safe_extract_text_returns row 8 _ price_transform_errors) as [? ->].
  by eexists.
Qed.

(** C1, as the code has it: for every row whose price cell reads
    ["$1,234.50"] or ["N/A"] (and carries no icon), the price field of the
    parsed record is that text, a string.  For ["N/A"] this is the fallback
    the claim describes; for ["$1,234.50"] it is not the float 1234.50 the
    claim asks for: the guard of [price_transform] tests the text before the
    currency symbol and the separators are removed, so the text never
    reaches [float]. *)
Theorem price_cell_with_symbol_stays_text :
  ∀ row element category keyword data,
    find_cell row 8 = Ok element →
    el_icons element = [] →
    el_text element = "$1,234.50" ∨ el_text element = "N/A" →
    parse_row_data row category keyword = Ok data →
    dict_get PRICE data = Some (VStr (el_text element)).
Proof.
  intros row element category keyword data Hcell Hicons Htext Hparse.
  destruct (parse_row_data_price _ _ _ _ Hparse) as (v & Hv & ->).
  f_equal. unfold safe_extract_text in Hv. rewrite Hcell in Hv.
  simpl in Hv. rewrite Hicons in Hv.
  destruct Htext as [Ht|Ht]; rewrite Ht in Hv |- *; vm_compute in Hv;
    congruence.
Qed.

Lemma price_cell_with_symbol_stays_text_witness :
  dict_get PRICE
    [(KEYWORD, VStr "brake pad"); (CATEGORY, VStr "Own stock warehouses");
     (MANUFACTURER, VStr "ACME"); (ARTICLE, VStr "A-1");
     (NAME, VStr "Brake pad"); (WEIGHT, VFloat (3 # 2));
     (AVAILABILITY, VInt 12); (LEAD_TIME, VInt 3);
     (INFORMATION, VStr "info"); (PRICE, VStr "$1,234.50")]
  = Some (VStr "$1,234.50").
Proof.
  apply (price_cell_with_symbol_stays_text
           (Example.row_with_price "$1,234.50")
           {| el_text := "$1,234.50"; el_icons := []; el_anchors := [] |}
           "Own stock warehouses" "brake pad").
  - reflexivity.
  - reflexivity.
  - left. reflexivity.
  - vm_compute. reflexivity.
Defined.

(** C2, as the code has it: the name cell is looked up outside
    [safe_extract_text]; when it is missing, [parse_row_data] raises
    [NoSuchElementException] and no record is produced. *)
Theorem missing_name_cell_raises :
  ∀ row category keyword e,
    find_cell row 3 = Raise e →
    parse_row_data row category keyword = Raise e.
Proof.
  intros row category keyword e Hname. unfold parse_row_data. unfold_bind.
  destruct (safe_extract_text_returns row 1 _ str_transform_errors) as [? ->].
  destruct (safe_extract_text_returns row 2 _ str_transform_errors) as [? ->].
  by rewrite Hname.
Qed.

Lemma missing_name_cell_raises_witness :
  parse_row_data Example.row_without_name "Own stock warehouses" "brake pad"
  = Raise NoSuchElementException.
Proof.
  apply (missing_name_cell_raises Example.row_without_name).
  reflexivity.
Defined.

(** ** Pagination extractor *)

#[local] Arguments Py.str_in_list : simpl never.
#[local] Arguments parse_row_data : simpl never.
#[local] Arguments mfr_value_of : simpl never.
#[local] Arguments os_path_join : simpl never.
#[local] Arguments screenshot_name : simpl never.

(** [parse_qs] never maps a name to an empty list, so indexing the values of
    ["mfr"] with [0] cannot fail. *)
Lemma parse_qs_values_nonempty qs name vs :
  dict_get name (Url.parse_qs qs) = Some vs → vs ≠ [].
Proof.
  unfold Url.parse_qs. generalize (Url.parse_qsl qs). intros fields.
  assert (Hinit : ∀ n v, dict_get n ([] : dict string (list string)) = Some v
                         → v ≠ []) by done.
  revert Hinit name vs.
  generalize ([] : dict string (list string)) as d.
  induction fields as [|[n0 v0] fields IH]; intros d Hd name vs; simpl.
  - apply Hd.
  - apply IH. clear name vs. intros n v.
    destruct (dict_get n0 d) as [vs0|] eqn:Hn0.
    + destruct (decide (n = n0)) as [->|Hne].
      * rewrite dict_get_set_eq. intros [= <-]. by destruct vs0.
      * rewrite dict_get_set_ne by done. apply Hd.
    + destruct (decide (n = n0)) as [->|Hne].
      * rewrite dict_get_set_eq. by intros [= <-].
      * rewrite dict_get_set_ne by done. apply Hd.
Qed.

Lemma mfr_value_of_returns current_url :
  ∃ mfr_value, mfr_value_of current_url = Ok mfr_value.
Proof.
  unfold mfr_value_of.
  destruct (dict_get "mfr" (Url.parse_qs (Url.query current_url)))
    as [vs|] eqn:Hget; simpl.
  - destruct vs as [|v vs]; [|by eexists].
    by apply parse_qs_values_nonempty in Hget.
  - by eexists.
Qed.

Lemma groups_loop_sink_or_log keyword category_name groups :
  forallb sink_or_log (groups_loop keyword category_name groups).1.1 = true.
Proof.
  revert category_name.
  induction groups as [|group rest IH]; intros category_name; simpl; [done|].
  destruct (g_title group) as [name|e].
  - destruct (negb _); simpl; [done|].
    specialize (IH (Some name)).
    destruct (groups_loop keyword (Some name) rest) as [[evs cn] out].
    simpl in *. rewrite forallb_app, IH, andb_true_r.
    apply forallb_forall. intros ev Hin. apply in_map_iff in Hin as (row & <- & _).
    unfold row_event. by destruct (parse_row_data _ _ _).
  - destruct category_name as [name|]; simpl; [|done].
    specialize (IH (Some name)).
    destruct (groups_loop keyword (Some name) rest) as [[evs cn] out].
    simpl in *. done.
Qed.

Lemma sink_or_log_visits evs :
  forallb sink_or_log evs = true → visits evs = [] ∧ clicks evs = 0.
Proof.
  induction evs as [|ev evs IH]; simpl; [done|].
  intros H. apply andb_true_iff in H as [Hev Hevs].
  destruct (IH Hevs) as [IHv IHc].
  unfold visits, clicks in *. destruct ev; simpl in *; done.
Qed.

(** A page with a group outside the allow-list never leaves the group loop
    with the continuation flag still set. *)
Lemma groups_loop_halts keyword category_name groups g t :
  g ∈ groups → g_title g = Ok t →
  Py.str_in_list t eligible_categories = false →
  (groups_loop keyword category_name groups).2 ≠ Ok true.
Proof.
  intros Hin Ht Hinel. revert category_name.
  induction groups as [|group rest IH]; intros category_name.
  - by apply elem_of_nil in Hin.
  - simpl. apply elem_of_cons in Hin as [<-|Hin].
    + rewrite Ht, Hinel. simpl. congruence.
    + destruct (g_title group) as [name|e].
      * destruct (negb _); simpl; [congruence|].
        specialize (IH Hin (Some name)).
        by destruct (groups_loop keyword (Some name) rest) as [[evs cn] out].
      * destruct category_name as [name|]; simpl; [|congruence].
        specialize (IH Hin (Some name)).
        by destruct (groups_loop keyword (Some name) rest) as [[evs cn] out].
Qed.

Lemma appends_app tr1 tr2 : appends (tr1 ++ tr2) = appends tr1 ++ appends tr2.
Proof. unfold appends. apply omap_app. Qed.

Lemma appends_rows keyword name rows :
  appends (map (row_event keyword name) rows)
  = omap (fun row => match parse_row_data row name keyword with
                     | Ok data => Some data
                     | Raise _ => None
                     end) rows.
Proof.
  induction rows as [|row rows IH]; simpl; [done|].
  unfold appends in *. simpl. unfold row_event at 1.
  destruct (parse_row_data row name keyword); simpl; by rewrite IH.
Qed.

(** Up to the first group outside the allow-list, every group is processed
    and its parsed records are appended in document order; the loop then
    halts. *)
Lemma groups_loop_prefix keyword category_name pre g post t :
  g_title g = Ok t →
  Py.str_in_list t eligible_categories = false →
  Forall titled_eligible pre →
  ∃ evs,
    groups_loop keyword category_name (pre ++ g :: post)
    = (evs, Some t, Ok false)
    ∧ appends evs = flat_map (parsed_records keyword) pre.
Proof.
  intros Ht Hinel Hpre. revert category_name.
  induction Hpre as [|g' pre (name & Hname & Hel) _ IH]; intros category_name.
  - simpl. rewrite Ht, Hinel. simpl. by eexists.
  - simpl. rewrite Hname, Hel. simpl.
    destruct (IH (Some name)) as (evs & -> & Happ).
    eexists. split; [reflexivity|].
    rewrite appends_app, appends_rows, Happ.
    unfold parsed_records at 2. by rewrite Hname.
Qed.

(** ** The sink, one writer at a time *)

Lemma write_data_row_count self data :
  row_count (write_data_row self data) = row_count self + 1.
Proof. reflexivity. Qed.

Lemma write_data_row_file self data :
  output_file (write_data_row self data) = output_file self.
Proof. reflexivity. Qed.

(** A call writes the record into the row [row_count] points to ... *)
Lemma write_data_row_row self data :
  sheet_row (worksheet (write_data_row self data)) (row_count self)
  = record_cells data.
Proof.
  unfold sheet_row, record_cells, write_data_row. cbn.
  unfold write_cell. repeat f_equal; by simplify_map_eq.
Qed.

(** ... and leaves every other row as it is. *)
Lemma write_data_row_other self data row col :
  row ≠ row_count self →
  worksheet (write_data_row self data) !! (row, col)
  = worksheet self !! (row, col).
Proof.
  intros Hrow. unfold write_data_row. cbn. unfold write_cell.
  rewrite !lookup_insert_ne by congruence. done.
Qed.

Lemma foldl_write_data_row_count records self :
  row_count (foldl write_data_row self records)
  = row_count self + length records.
Proof.
  revert self. induction records as [|data records IH]; intros self; simpl.
  - lia.
  - rewrite IH, write_data_row_count. lia.
Qed.

Lemma foldl_write_data_row_below records self row col :
  row < row_count self →
  worksheet (foldl write_data_row self records) !! (row, col)
  = worksheet self !! (row, col).
Proof.
  revert self. induction records as [|data records IH]; intros self Hrow;
    simpl; [done|].
  rewrite IH by (rewrite write_data_row_count; lia).
  apply write_data_row_other. lia.
Qed.

(** Rows that have been appended stay: the [i]-th record of a sequence of
    calls is found [i] rows below the row the first call wrote. *)
Lemma foldl_write_data_row_keeps records self i data :
  records !! i = Some data →
  sheet_row (worksheet (foldl write_data_row self records)) (row_count self + i)
  = record_cells data.
Proof.
  revert self i. induction records as [|d records IH]; intros self i Hi;
    [done|].
  destruct i as [|i]; simpl in *.
  - injection Hi as ->. rewrite Nat.add_0_r.
    rewrite <- (write_data_row_row self data).
    unfold sheet_row. apply map_ext. intros col.
    apply foldl_write_data_row_below. rewrite write_data_row_count. lia.
  - rewrite <- (IH (write_data_row self d) i Hi).
    rewrite write_data_row_count. f_equal. lia.
Qed.

(** ** C3 *)

Lemma scrape_loop_halt env keyword folder fuel page page_num category_name
    mfr_value :
  mfr_value_of (p_url page) = Ok mfr_value →
  (groups_loop keyword category_name (p_groups page)).2 ≠ Ok true →
  ∃ out,
    scrape_loop env keyword folder (S fuel) page page_num category_name
    = Some ([EvFindGroups (p_url page) (length (p_groups page));
             EvScreenshot
               (os_path_join folder
                  (screenshot_name keyword mfr_value page_num))
               (take_screenshot env
                  (os_path_join folder
                     (screenshot_name keyword mfr_value page_num)) page)]
            ++ (groups_loop keyword category_name (p_groups page)).1.1,
            out)
    ∧ (out = Ok () ↔
       (groups_loop keyword category_name (p_groups page)).2 = Ok false).
Proof.
  intros Hmfr Hhalt. simpl. rewrite Hmfr.
  destruct (groups_loop keyword category_name (p_groups page))
    as [[evs cn] out]. simpl in *.
  destruct out as [[|]|e]; [done| |].
  - eexists. split; [reflexivity|]. done.
  - eexists. split; [reflexivity|]. split; congruence.
Qed.

(** C3: on a page that has a group whose name is outside the allow-list,
    the loop returns during that very iteration, whatever fuel is left: the
    trace visits this page only and asks for no next page.  When every group
    in front of the first such group is an eligible one, the loop ends
    normally and the records appended are exactly the records parsed from
    those groups, in document order; replayed on a sink, each of them is
    found in its own row below the rows the sink had before. *)
Theorem unrecognised_category_halts :
  ∀ env keyword folder fuel page page_num category_name pre g post t,
    p_groups page = pre ++ g :: post →
    g_title g = Ok t →
    Py.str_in_list t eligible_categories = false →
    ∃ evs out,
      scrape_loop env keyword folder (S fuel) page page_num category_name
      = Some (evs, out)
      ∧ visits evs = [p_url page]
      ∧ clicks evs = 0
      ∧ (Forall titled_eligible pre →
         out = Ok ()
         ∧ appends evs = flat_map (parsed_records keyword) pre
         ∧ ∀ self i data,
             flat_map (parsed_records keyword) pre !! i = Some data →
             sheet_row (worksheet (replay self evs)) (row_count self + i)
             = record_cells data).
Proof.
  intros env keyword folder fuel page page_num category_name pre g post t
    Hgroups Ht Hinel.
  destruct (mfr_value_of_returns (p_url page)) as [mfr_value Hmfr].
  assert (Hin : g ∈ p_groups page).
  { rewrite Hgroups. apply elem_of_app. right. apply list_elem_of_here. }
  pose proof (groups_loop_halts keyword category_name _ g t Hin Ht Hinel)
    as Hhalt.
  destruct (scrape_loop_halt env keyword folder fuel page page_num
              category_name mfr_value Hmfr Hhalt) as (out & Hrun & Hout).
  pose proof (groups_loop_sink_or_log keyword category_name (p_groups page))
    as Hkind.
  apply sink_or_log_visits in Hkind as [Hvis Hclk].
  eexists _, out. split; [exact Hrun|].
  split; [|split].
  - unfold visits in *. rewrite omap_app, Hvis. reflexivity.
  - unfold clicks in *. rewrite filter_app, length_app, Hclk. reflexivity.
  - intros Hpre.
    destruct (groups_loop_prefix keyword category_name pre g post t
                Ht Hinel Hpre) as (evs & Hloop & Happ).
    rewrite Hgroups, Hloop in *. simpl in *.
    split; [by apply Hout|]. split; [exact Happ|].
    intros self i data Hi. unfold replay.
    match goal with
    | |- context [appends (?a :: ?b :: evs)] =>
        change (appends (a :: b :: evs)) with (appends evs)
    end.
    rewrite Happ.
    by apply foldl_write_data_row_keeps.
Qed.

Lemma unrecognised_category_halts_witness :
  ∃ evs out,
    scrape_loop Example.env "brake pad" "out/APEC Screenshots" 1
      Example.page_a2 2 (Some "Own stock warehouses")
    = Some (evs, out)
    ∧ visits evs = [Example.url_a2]
    ∧ clicks evs = 0
    ∧ (Forall titled_eligible [Example.group_requested] →
       out = Ok ()
       ∧ appends evs
         = flat_map (parsed_records "brake pad") [Example.group_requested]
       ∧ ∀ self i data,
           flat_map (parsed_records "brake pad") [Example.group_requested] !! i
           = Some data →
           sheet_row (worksheet (replay self evs)) (row_count self + i)
           = record_cells data).
Proof.
  apply (unrecognised_category_halts Example.env "brake pad"
           "out/APEC Screenshots" 0 Example.page_a2 2
           (Some "Own stock warehouses")
           [Example.group_requested] Example.group_related
           [Example.group_own] "Related Products").
  - reflexivity.
  - reflexivity.
  - reflexivity.
Defined.

(** ** C5 *)

(** C5: whenever [scrape_manufacturer_data] returns, the session it took
    from the pool at entry has been given back as its last action, and the
    pool has as many available sessions as before the call.  When the first
    page does not load ([driver.get] raises, or no group appears before the
    timeout) the call does return, whatever the fuel, after logging the
    failure and releasing the session. *)
Theorem session_released_on_every_exit :
  ∀ env url keyword folder pool fuel,
    (∀ pool' tr,
       scrape_manufacturer_data env url keyword folder pool fuel
       = Some (pool', tr) →
       ∃ driver pool1 body,
         acquire pool = Some (driver, pool1)
         ∧ pool' = release driver pool1
         ∧ tr = EvAcquire driver :: body ++ [EvRelease driver]
         ∧ driver ∈ available pool'
         ∧ length (available pool') = length (available pool))
    ∧ (∀ driver pool1,
         acquire pool = Some (driver, pool1) →
         (∀ page, navigate env url = Ok page → p_groups page = []) →
         ∃ e,
           scrape_manufacturer_data env url keyword folder pool fuel
           = Some (release driver pool1,
                   [EvAcquire driver; EvGet url;
                    EvLog ERROR ("Error scraping data from " +:+ url +:+ ": "
                                 +:+ exn_str e);
                    EvRelease driver])).
Proof.
  intros env url keyword folder pool fuel. split.
  - intros pool' tr Hrun. unfold scrape_manufacturer_data in Hrun.
    destruct (acquire pool) as [[driver pool1]|] eqn:Hacq; [|done].
    destruct (scrape_body env url keyword folder fuel) as [[evs out]|];
      [|done].
    injection Hrun as <- <-.
    exists driver, pool1, (evs ++ match out with
                                  | Ok _ => []
                                  | Raise e =>
                                      [EvLog ERROR
                                         ("Error scraping data from " +:+ url
                                          +:+ ": " +:+ exn_str e)]
                                  end).
    split; [done|]. split; [done|]. split.
    { by rewrite <- app_assoc. }
    unfold acquire in Hacq.
    destruct (available pool) as [|d rest] eqn:Hav; [done|].
    injection Hacq as <- <-. simpl. split.
    + apply elem_of_app. right. apply list_elem_of_here.
    + rewrite length_app. simpl. lia.
  - intros driver pool1 Hacq Hload. unfold scrape_manufacturer_data.
    rewrite Hacq. unfold scrape_body. unfold_bind.
    destruct (navigate env url) as [page|e] eqn:Hnav.
    + rewrite (Hload page eq_refl). simpl. exists TimeoutException.
      reflexivity.
    + simpl. exists e. reflexivity.
Qed.

Lemma session_released_on_every_exit_witness :
  (∃ driver pool1 body,
     acquire (DriverPool_init 3) = Some (driver, pool1)
     ∧ {| pool_size := 3; available := [1; 2; 0] |} = release driver pool1
     ∧ [EvAcquire 0; EvGet Example.url_b;
        EvLog ERROR ("Error scraping data from " +:+ Example.url_b
                     +:+ ": timeout");
        EvRelease 0]
       = EvAcquire driver :: body ++ [EvRelease driver]
     ∧ driver ∈ available {| pool_size := 3; available := [1; 2; 0] |}
     ∧ length (available {| pool_size := 3; available := [1; 2; 0] |})
       = length (available (DriverPool_init 3)))
  ∧ ∃ e,
      scrape_manufacturer_data Example.env Example.url_b "brake pad"
        "out/APEC Screenshots" (DriverPool_init 3) 5
      = Some (release 0 {| pool_size := 3; available := [1; 2] |},
              [EvAcquire 0; EvGet Example.url_b;
               EvLog ERROR ("Error scraping data from " +:+ Example.url_b
                            +:+ ": " +:+ exn_str e);
               EvRelease 0]).
Proof.
  pose proof (session_released_on_every_exit Example.env Example.url_b
                "brake pad" "out/APEC Screenshots" (DriverPool_init 3) 5)
    as [Hexit Hload].
  split.
  - apply Hexit. vm_compute. reflexivity.
  - apply Hload.
    + reflexivity.
    + intros page. vm_compute. intros [= <-]. reflexivity.
Defined.

(** ** C9 *)

Lemma sink_or_log_no_capture evs :
  forallb sink_or_log evs = true → forallb no_capture evs = true.
Proof.
  intros H. apply forallb_forall. intros ev Hin.
  apply (proj1 (forallb_forall _ _) H) in Hin. by destruct ev.
Qed.

Lemma next_page_no_capture env page :
  forallb no_capture (next_page env page).1 = true.
Proof.
  unfold next_page. unfold_bind.
  destruct (p_next page) as [cls|e]; simpl.
  - destruct (is_disabled cls); simpl; [done|].
    destruct (click_next env page) as [page'|e]; simpl.
    + destruct (wait_present (p_groups page')); simpl; [done|].
      by destruct e.
    + by destruct e.
  - by destruct e.
Qed.

Section CapturesFollow.
Variables (bump : bool → nat → nat) (folder keyword : string).

Lemma captures_follow_skip evs tr page_num :
  forallb no_capture evs = true →
  captures_follow bump folder keyword None page_num (evs ++ tr)
  = captures_follow bump folder keyword None page_num tr.
Proof.
  induction evs as [|ev evs IH]; simpl; [done|].
  intros H. apply andb_true_iff in H as [Hev Hevs].
  destruct ev; simpl in Hev; try discriminate; by apply IH.
Qed.

Lemma captures_follow_app evs tl pending page_num :
  captures_follow bump folder keyword pending page_num evs = true →
  forallb no_capture tl = true →
  captures_follow bump folder keyword pending page_num (evs ++ tl) = true.
Proof.
  intros Hevs Htl. revert pending page_num Hevs.
  induction evs as [|ev evs IH]; intros pending page_num Hevs.
  - simpl in Hevs. apply bool_decide_eq_true_1 in Hevs as ->.
    rewrite <- (app_nil_r tl). rewrite app_nil_l.
    by rewrite captures_follow_skip.
  - simpl in *. destruct pending as [u|], ev; try done; try (by apply IH).
    apply andb_true_iff in Hevs as [Hp Hevs].
    rewrite Hp. simpl. by apply IH.
Qed.

(** One capture attempt for each page visited. *)
Lemma captures_follow_count tr pending page_num :
  captures_follow bump folder keyword pending page_num tr = true →
  length (captures tr)
  = length (visits tr) + (match pending with Some _ => 1 | None => 0 end).
Proof.
  revert pending page_num.
  induction tr as [|ev tr IH]; intros pending page_num H; simpl in *.
  - apply bool_decide_eq_true_1 in H as ->. done.
  - unfold captures, visits in *.
    destruct pending as [u|], ev; try done; simpl;
      try (by rewrite (IH _ _ H)).
    + apply andb_true_iff in H as [_ H]. rewrite (IH _ _ H). simpl. lia.
Qed.
End CapturesFollow.

(** When every capture succeeds the two ways of counting agree. *)
Lemma captures_follow_all_ok folder keyword tr pending page_num :
  forallb snd (captures tr) = true →
  captures_follow bump_always folder keyword pending page_num tr
  = captures_follow bump_if_captured folder keyword pending page_num tr.
Proof.
  revert pending page_num.
  induction tr as [|ev tr IH]; intros pending page_num Hok; simpl; [done|].
  unfold captures in *.
  destruct pending as [u|], ev; simpl in *; try done; try (by apply IH).
  apply andb_true_iff in Hok as [-> Hok].
  f_equal. by apply IH.
Qed.

Lemma scrape_loop_captures env keyword folder fuel :
  ∀ page page_num category_name evs out,
    scrape_loop env keyword folder fuel page page_num category_name
    = Some (evs, out) →
    captures_follow bump_if_captured folder keyword None page_num evs = true.
Proof.
  induction fuel as [|fuel IH]; intros page page_num category_name evs out;
    [done|].
  simpl. destruct (mfr_value_of_returns (p_url page)) as [mfr_value Hmfr].
  rewrite Hmfr.
  pose proof (groups_loop_sink_or_log keyword category_name (p_groups page))
    as Hkind. apply sink_or_log_no_capture in Hkind.
  destruct (groups_loop keyword category_name (p_groups page))
    as [[gevs cn] gout]. simpl in Hkind.
  assert (Hhead : ∀ tl,
    captures_follow bump_if_captured folder keyword None page_num
      (EvFindGroups (p_url page) (length (p_groups page))
       :: EvScreenshot
            (os_path_join folder (screenshot_name keyword mfr_value page_num))
            (take_screenshot env
               (os_path_join folder
                  (screenshot_name keyword mfr_value page_num)) page)
       :: gevs ++ tl)
    = captures_follow bump_if_captured folder keyword None
        (if take_screenshot env
              (os_path_join folder
                 (screenshot_name keyword mfr_value page_num)) page
         then page_num + 1 else page_num) tl).
  { intros tl. simpl. unfold capture_path. rewrite Hmfr.
    rewrite bool_decide_eq_true_2 by done. simpl.
    by rewrite captures_follow_skip. }
  destruct gout as [[|]|e].
  - pose proof (next_page_no_capture env page) as Hnext.
    destruct (next_page env page) as [evs_next [page'|]]; simpl in Hnext.
    + destruct (scrape_loop env keyword folder fuel page' _ cn)
        as [[evs' out']|] eqn:Hrec; [|done].
      intros [= <- <-]. rewrite Hhead.
      rewrite captures_follow_skip by done. by eapply IH.
    + intros [= <- <-]. rewrite Hhead.
      rewrite <- (app_nil_r evs_next). by rewrite captures_follow_skip.
  - intros [= <- <-]. rewrite <- (app_nil_r gevs). by rewrite Hhead.
  - intros [= <- <-]. rewrite <- (app_nil_r gevs). by rewrite Hhead.
Qed.

(** C9, as the code has it: in every run of [scrape_manufacturer_data] that
    returns, each page visited is followed by exactly one capture attempt,
    whose file is named after the keyword, the [mfr] query parameter of the
    current URL (["unknown"] when there is none) and the page counter; the
    counter starts at 1 and moves on after a capture that succeeded.  When
    every capture succeeds, successive pages get successive numbers. *)
Theorem captures_named_by_counter :
  ∀ env url keyword folder pool fuel pool' tr,
    scrape_manufacturer_data env url keyword folder pool fuel
    = Some (pool', tr) →
    captures_follow bump_if_captured folder keyword None 1 tr = true
    ∧ length (captures tr) = length (visits tr)
    ∧ (forallb snd (captures tr) = true →
       captures_follow bump_always folder keyword None 1 tr = true)
    ∧ (∀ current_url page_num,
         dict_get "mfr" (Url.parse_qs (Url.query current_url)) = None →
         capture_path folder keyword current_url page_num
         = Some (os_path_join folder
                   (keyword +:+ " unknown page " +:+ Py.str_of_nat page_num
                    +:+ ".png"))).
Proof.
  intros env url keyword folder pool fuel pool' tr Hrun.
  assert (Hcode :
    captures_follow bump_if_captured folder keyword None 1 tr = true).
  { unfold scrape_manufacturer_data in Hrun.
    destruct (acquire pool) as [[driver pool1]|]; [|done].
    unfold scrape_body in Hrun. unfold_bind.
    destruct (navigate env url) as [page|e]; simpl in Hrun.
    - destruct (wait_present (p_groups page)); simpl in Hrun.
      + destruct (scrape_loop env keyword folder fuel page 1 None)
          as [[evs out]|] eqn:Hloop; [|done].
        injection Hrun as <- <-. simpl.
        apply captures_follow_app.
        * by eapply scrape_loop_captures.
        * by destruct out.
      + by injection Hrun as <- <-.
    - by injection Hrun as <- <-. }
  split; [exact Hcode|]. split; [|split].
  - rewrite (captures_follow_count _ _ _ _ _ _ Hcode). lia.
  - intros Hok. by rewrite captures_follow_all_ok.
  - intros current_url page_num Habs. unfold capture_path, mfr_value_of.
    rewrite Habs. reflexivity.
Qed.

Lemma captures_named_by_counter_witness :
  captures_follow bump_if_captured "out/APEC Screenshots" "brake pad" None 1
    (default []
       (snd <$> scrape_manufacturer_data Example.env Example.url_a
                  "brake pad" "out/APEC Screenshots" (DriverPool_init 3) 5))
  = true.
Proof.
  eapply (captures_named_by_counter Example.env Example.url_a "brake pad"
            "out/APEC Screenshots" (DriverPool_init 3) 5
            {| pool_size := 3; available := [1; 2; 0] |}).
  vm_compute. reflexivity.
Defined.

(** C9, as stated, fails: when the capture of the first page fails, the
    second page is captured under the number of the first, and the first
    page has no capture. *)
Lemma captures_renumbered_counterexample :
  (fun r => (visits r.2, captures r.2,
             captures_follow bump_always "out/APEC Screenshots" "brake pad"
               None 1 r.2))
    <$> scrape_manufacturer_data Example.env_capture_fails Example.url_a
          "brake pad" "out/APEC Screenshots" (DriverPool_init 3) 5
  = Some ([Example.url_a; Example.url_a2],
          [("out/APEC Screenshots/brake pad ACME page 1.png", false);
           ("out/APEC Screenshots/brake pad ACME page 1.png", true)],
          false).
Proof. vm_compute. reflexivity. Qed.

(** ** Discovery *)

Lemma gets_app tr1 tr2 : gets (tr1 ++ tr2) = gets tr1 ++ gets tr2.
Proof. apply omap_app. Qed.

Lemma logged_app level tr1 tr2 :
  logged level (tr1 ++ tr2) = logged level tr1 ++ logged level tr2.
Proof. apply omap_app. Qed.

(** A discovery makes one navigation, to the search URL of the keyword. *)
Lemma get_manufacturer_urls_gets env n keyword :
  gets (get_manufacturer_urls env n keyword).2
  = [build_apec_manufacturer_search env keyword].
Proof.
  unfold get_manufacturer_urls, discovery_body. unfold_bind.
  destruct (discovery_get env n _) as [page|e]; simpl; [|done].
  destruct (wait_present (p_links page)); simpl; [|done].
  case_bool_decide; simpl; [done|].
  destruct (negb _ && _); simpl; [done|].
  destruct (links_loop env (p_links page) []) as [urls [|e]]; simpl; done.
Qed.

(** The dictionary the loop builds: one assignment per searched keyword, in
    order, the [n]-th discovery made with the [n]-th navigation. *)
Lemma fetch_loop_dict env keywords :
  ∀ n d,
    (fetch_loop env n keywords d).1
    = fold_left (fun d' '(i, k) =>
                   dict_set k (get_manufacturer_urls env i k).1 d')
                (combine (seq n (length (searched keywords)))
                         (searched keywords)) d.
Proof.
  unfold searched.
  induction keywords as [|keyword rest IH]; intros n d; simpl; [done|].
  destruct (Py.truthy (Py.strip keyword)) eqn:Hk; simpl.
  - destruct (get_manufacturer_urls env n (Py.strip keyword)) as [urls evs]
      eqn:Hd.
    specialize (IH (S n) (dict_set (Py.strip keyword) urls d)).
    destruct (fetch_loop env (S n) rest _) as [d' evs']. simpl in *.
    exact IH.
  - specialize (IH n d).
    destruct (fetch_loop env n rest d) as [d' evs']. simpl in *. exact IH.
Qed.

Lemma fetch_loop_gets env keywords :
  ∀ n d,
    gets (fetch_loop env n keywords d).2
    = map (build_apec_manufacturer_search env) (searched keywords).
Proof.
  unfold searched.
  induction keywords as [|keyword rest IH]; intros n d; simpl; [done|].
  destruct (Py.truthy (Py.strip keyword)) eqn:Hk; simpl.
  - pose proof (get_manufacturer_urls_gets env n (Py.strip keyword)) as Hg.
    destruct (get_manufacturer_urls env n (Py.strip keyword)) as [urls evs].
    specialize (IH (S n) (dict_set (Py.strip keyword) urls d)).
    destruct (fetch_loop env (S n) rest _) as [d' evs']. simpl in *.
    by rewrite gets_app, Hg, IH.
  - specialize (IH n d).
    destruct (fetch_loop env n rest d) as [d' evs']. simpl in *. exact IH.
Qed.

Section Assignments.
Context (urls_of : nat → string → list string).

Let assign (d : dict string (list string)) (ik : nat * string)
  : dict string (list string) :=
  let '(i, k) := ik in dict_set k (urls_of i k) d.

Lemma assignments_keys ks :
  ∀ n d k,
    k ∈ dict_keys (fold_left assign (combine (seq n (length ks)) ks) d)
    ↔ k ∈ ks ∨ k ∈ dict_keys d.
Proof.
  induction ks as [|k0 ks IH]; intros n d k; simpl.
  - rewrite elem_of_nil. tauto.
  - rewrite IH, dict_keys_set_elem, elem_of_cons. tauto.
Qed.

Lemma assignments_NoDup ks :
  ∀ n d,
    NoDup (dict_keys d) →
    NoDup (dict_keys (fold_left assign (combine (seq n (length ks)) ks) d)).
Proof.
  induction ks as [|k0 ks IH]; intros n d Hd; simpl; [done|].
  apply IH. by apply dict_keys_set_NoDup.
Qed.

Lemma assignments_keep ks :
  ∀ n d k,
    k ∉ ks →
    dict_get k (fold_left assign (combine (seq n (length ks)) ks) d)
    = dict_get k d.
Proof.
  induction ks as [|k0 ks IH]; intros n d k Hk; simpl; [done|].
  apply not_elem_of_cons in Hk as [Hne Hk].
  rewrite IH by done. by apply dict_get_set_ne.
Qed.

(** The last assignment to a key is the one that stays. *)
Lemma assignments_last ks1 k ks2 :
  ∀ n d,
    k ∉ ks2 →
    dict_get k (fold_left assign
                  (combine (seq n (length (ks1 ++ k :: ks2))) (ks1 ++ k :: ks2))
                  d)
    = Some (urls_of (n + length ks1) k).
Proof.
  induction ks1 as [|k1 ks1 IH]; intros n d Hk; simpl.
  - rewrite assignments_keep by done.
    rewrite Nat.add_0_r. apply dict_get_set_eq.
  - rewrite IH by done. do 2 f_equal. lia.
Qed.
End Assignments.

Lemma fan_out_cons k (us : list string) (d : dict string (list string)) :
  fan_out ((k, us) :: d) = map (pair k) us ++ fan_out d.
Proof. reflexivity. Qed.

(** With distinct keys, the pairs fanned out for a keyword are its URLs, each
    once. *)
Lemma fan_out_of_key (d : dict string (list string)) k urls :
  NoDup (dict_keys d) →
  dict_get k d = Some urls →
  filter (fun p => p.1 = k) (fan_out d) = map (pair k) urls.
Proof.
  assert (Hother : ∀ k' (us : list string),
            k' ≠ k → filter (fun p : string * string => p.1 = k)
                       (map (pair k') us) = []).
  { intros k' us Hne. induction us as [|u us IHus]; simpl; [done|].
    rewrite filter_cons_False by done. exact IHus. }
  assert (Hsame : ∀ us : list string,
            filter (fun p : string * string => p.1 = k) (map (pair k) us)
            = map (pair k) us).
  { intros us. induction us as [|u us IHus]; simpl; [done|].
    rewrite filter_cons_True by done. by rewrite IHus. }
  assert (Habsent : ∀ d' : dict string (list string),
            k ∉ dict_keys d' →
            filter (fun p : string * string => p.1 = k) (fan_out d') = []).
  { intros d'. induction d' as [|[k' us] d' IHd]; intros Hk; [done|].
    rewrite fan_out_cons. simpl in Hk.
    apply not_elem_of_cons in Hk as [Hne Hk].
    rewrite filter_app, Hother by done. by apply IHd. }
  induction d as [|[k' us] d IH]; intros Hnd Hget; [done|].
  rewrite fan_out_cons. simpl in *. apply NoDup_cons in Hnd as [Hk' Hnd].
  rewrite filter_app.
  destruct (decide (k = k')) as [->|Hne].
  - injection Hget as ->. rewrite Hsame.
    rewrite Habsent by done. apply app_nil_r.
  - rewrite Hother by done. by apply IH.
Qed.

Lemma searched_elem keywords k :
  k ∈ searched keywords
  ↔ Py.truthy k = true ∧ ∃ keyword, keyword ∈ keywords ∧ Py.strip keyword = k.
Proof.
  unfold searched. rewrite list_elem_of_In, filter_In, in_map_iff.
  split.
  - intros [(keyword & <- & Hin) Ht]. split; [done|].
    exists keyword. by rewrite list_elem_of_In.
  - intros [Ht (keyword & Hin & <-)]. split; [|done].
    exists keyword. by rewrite <- list_elem_of_In.
Qed.

Lemma fetch_all_dict env keywords :
  (fetch_all_manufacturer_urls env keywords).1
  = fold_left (fun d' '(i, k) =>
                 dict_set k (get_manufacturer_urls env i k).1 d')
              (combine (seq 0 (length (searched keywords)))
                       (searched keywords)) [].
Proof.
  unfold fetch_all_manufacturer_urls.
  rewrite <- (fetch_loop_dict env keywords 0 []).
  by destruct (fetch_loop env 0 keywords []).
Qed.

(** Every occurrence of a keyword is searched, in order. *)
Lemma fetch_all_gets env keywords :
  gets (fetch_all_manufacturer_urls env keywords).2
  = map (build_apec_manufacturer_search env) (searched keywords).
Proof.
  unfold fetch_all_manufacturer_urls.
  rewrite <- (fetch_loop_gets env keywords 0 []).
  destruct (fetch_loop env 0 keywords []) as [d' evs]. simpl.
  rewrite gets_app. simpl. by rewrite app_nil_r.
Qed.

Lemma fetch_all_keys env keywords k :
  k ∈ dict_keys (fetch_all_manufacturer_urls env keywords).1
  ↔ k ∈ searched keywords.
Proof.
  rewrite fetch_all_dict.
  rewrite (assignments_keys (fun i k => (get_manufacturer_urls env i k).1)).
  simpl. rewrite elem_of_nil. tauto.
Qed.

(** C10: the dictionary [fetch_all_manufacturer_urls] returns has exactly one
    entry for each distinct non-empty trimmed keyword; the entry holds the
    list found by the last discovery made for that keyword; every occurrence
    of a keyword is searched (one navigation each); and the pairs fanned out
    for a keyword are the URLs of its entry, each once. *)
Theorem one_entry_per_trimmed_keyword :
  ∀ env keywords,
    let d := (fetch_all_manufacturer_urls env keywords).1 in
    let tr := (fetch_all_manufacturer_urls env keywords).2 in
    NoDup (dict_keys d)
    ∧ (∀ k, k ∈ dict_keys d
            ↔ Py.truthy k = true
              ∧ ∃ keyword, keyword ∈ keywords ∧ Py.strip keyword = k)
    ∧ (∀ ks1 k ks2,
         searched keywords = ks1 ++ k :: ks2 → k ∉ ks2 →
         dict_get k d = Some (get_manufacturer_urls env (length ks1) k).1)
    ∧ gets tr = map (build_apec_manufacturer_search env) (searched keywords)
    ∧ (∀ k urls,
         dict_get k d = Some urls →
         filter (fun p => p.1 = k) (fan_out d) = map (pair k) urls).
Proof.
  intros env keywords d tr.
  assert (Hnd : NoDup (dict_keys d)).
  { subst d. rewrite fetch_all_dict.
    apply (assignments_NoDup (fun i k => (get_manufacturer_urls env i k).1)).
    apply NoDup_nil_2. }
  split; [exact Hnd|]. split; [|split; [|split]].
  - intros k. rewrite <- searched_elem. apply fetch_all_keys.
  - intros ks1 k ks2 Hks Hk. subst d. rewrite fetch_all_dict, Hks.
    by rewrite (assignments_last
                  (fun i k => (get_manufacturer_urls env i k).1)).
  - apply fetch_all_gets.
  - intros k urls Hget. by apply fan_out_of_key.
Qed.

(** ** C7 *)

(** The links loop appends what the links in front of the first failing one
    resolve to, and stops at that one. *)
Lemma links_loop_spec env rows :
  ∀ acc,
    ∃ urls,
      (links_loop env rows acc).1 = acc ++ urls
      ∧ match (links_loop env rows acc).2 with
        | Ok _ => Forall2 (fun row u => resolve_link env row = Ok u) rows urls
        | Raise e =>
            ∃ pre bad rest,
              rows = pre ++ bad :: rest
              ∧ Forall2 (fun row u => resolve_link env row = Ok u) pre urls
              ∧ resolve_link env bad = Raise e
        end.
Proof.
  induction rows as [|row rest IH]; intros acc; simpl.
  - exists []. by rewrite app_nil_r.
  - fold (resolve_link env row).
    destruct (resolve_link env row) as [full_link|e] eqn:Hrow.
    + destruct (IH (acc ++ [full_link])) as (urls & Hurls & Hout).
      exists (full_link :: urls). split.
      * rewrite Hurls, <- app_assoc. done.
      * destruct (links_loop env rest (acc ++ [full_link])).2 as [?|e].
        -- by constructor.
        -- destruct Hout as (pre & bad & rest' & -> & Hpre & Hbad).
           exists (row :: pre), bad, rest'. split; [done|].
           split; [by constructor | done].
    + exists []. split; [by rewrite app_nil_r|].
      exists [], row, rest. split; [done|]. split; [constructor | done].
Qed.

(** C7, as the code has it: when the [try] block of a discovery is left by
    an exception, an ERROR record with the keyword and the exception is
    logged, and the keyword contributes the links collected until then: none
    when the page did not load or showed no listing in time, and otherwise
    the links in front of the one whose reading or resolving failed.  A
    failure does not stop the loop over the keywords: every searched keyword
    gets its navigation and its entry. *)
Theorem discovery_failure_is_contained :
  ∀ env,
    (∀ n keyword urls evs e,
       discovery_body env n keyword
         (build_apec_manufacturer_search env keyword)
       = (urls, evs, Raise e) →
       get_manufacturer_urls env n keyword
       = (urls,
          evs ++ [EvLog ERROR
                    ("Error extracting manufacturer links for keyword "
                     +:+ keyword +:+ ": " +:+ exn_str e)])
       ∧ match discovery_get env n
                 (build_apec_manufacturer_search env keyword) with
         | Raise _ => urls = []
         | Ok page =>
             match p_links page with
             | [] => urls = []
             | _ =>
                 ∃ pre bad rest,
                   p_links page = pre ++ bad :: rest
                   ∧ Forall2 (fun row u => resolve_link env row = Ok u)
                       pre urls
                   ∧ resolve_link env bad = Raise e
             end
         end)
    ∧ (∀ keywords,
         gets (fetch_all_manufacturer_urls env keywords).2
         = map (build_apec_manufacturer_search env) (searched keywords)
         ∧ ∀ k, k ∈ searched keywords →
                is_Some (dict_get k (fetch_all_manufacturer_urls env keywords).1)).
Proof.
  intros env. split.
  - intros n keyword urls evs e Hbody. split.
    + unfold get_manufacturer_urls. by rewrite Hbody.
    + unfold discovery_body in Hbody. unfold_bind.
      destruct (discovery_get env n _) as [page|e0]; simpl in Hbody.
      * destruct (p_links page) as [|row rows] eqn:Hlinks; simpl in Hbody.
        { by injection Hbody as <- _ _. }
        case_bool_decide; [done|].
        destruct (negb _ && _); [done|].
        destruct (links_loop_spec env (row :: rows) [])
          as (urls' & Hurls & Hout).
        rewrite Hlinks in Hbody.
        destruct (links_loop env (row :: rows) []) as [urls0 out0].
        simpl in Hurls, Hout. injection Hbody as <- _ ->. by subst.
      * by injection Hbody as <- _ _.
  - intros keywords. split; [apply fetch_all_gets|].
    intros k Hk. by apply dict_keys_get, fetch_all_keys.
Qed.

Lemma failed_discovery_contributes_links_counterexample :
  fetch_all_manufacturer_urls Example.env_stale ["brake pad"]
  = ([("brake pad", [Example.url_a])],
     [EvGet "https://apecauto.com/search?pn=brake pad";
      EvLog ERROR "Error extracting manufacturer links for keyword brake pad: stale element reference";
      EvQuit]).
Proof. vm_compute. reflexivity. Qed.

(** ** Workers sharing the sink *)

Lemma run_app s l1 l2 : run s (l1 ++ l2) = run (run s l1) l2.
Proof.
  revert s. induction l1 as [|tid l1 IH]; intros s; simpl; [done|].
  apply IH.
Qed.

Lemma run_step s tid s1 l : step s tid = Some s1 → run s (tid :: l) = run s1 l.
Proof. intros H. simpl. by rewrite H. Qed.

(** Moves one step of worker [tid], whose thread record is known from the
    hypothesis [Hth] or from the last update of the thread list. *)
Ltac move_worker Hth Hlock :=
  match goal with
  | |- context [run ?s (?tid :: ?l)] =>
      erewrite (run_step s tid _ l);
      [| unfold step; simpl;
         first [ rewrite Hth
               | rewrite list_lookup_insert_eq
                   by (rewrite ?length_insert; done) ];
         simpl; rewrite ?Hlock; reflexivity ]
  end.

(** One entry of [fields_to_write], written by a worker nobody disturbs:
    four steps, after which the sink is as [write_field] says and the lock is
    free again. *)
Lemma run_field tid data rest f fields s :
  threads s !! tid
  = Some {| th_todo := data :: rest; th_pc := PcArgs (f :: fields) |} →
  lock s = None →
  ∃ st,
    run s [tid; tid; tid; tid]
    = {| sink := write_field data (sink s) f;
         lock := None;
         threads := <[tid := {| th_todo := data :: rest;
                                th_pc := PcArgs fields |}]> (threads s);
         stores := st |}.
Proof.
  intros Hth Hlock.
  assert (Hlt : tid < length (threads s)) by (by eapply lookup_lt_Some).
  destruct f as [data_key url_key].
  do 4 move_worker Hth Hlock.
  simpl. rewrite !list_insert_insert_eq. by eexists.
Qed.

(** A whole call of [write_data_row] by a worker nobody disturbs. *)
Lemma run_record tid data rest :
  ∀ fields s,
    threads s !! tid
    = Some {| th_todo := data :: rest; th_pc := PcArgs fields |} →
    lock s = None →
    let s' := run s (replicate (4 * length fields + 2) tid) in
    sink s' = incr_row_count (foldl (write_field data) (sink s) fields)
    ∧ lock s' = None
    ∧ threads s'
      = <[tid := {| th_todo := rest; th_pc := PcArgs fields_to_write |}]>
          (threads s).
Proof.
  induction fields as [|f fields IH]; intros s Hth Hlock.
  - assert (Hlt : tid < length (threads s)) by (by eapply lookup_lt_Some).
    cbn zeta. change (replicate (4 * length [] + 2) tid) with [tid; tid].
    do 2 move_worker Hth Hlock.
    simpl. rewrite list_insert_insert_eq. done.
  - assert (Hlt : tid < length (threads s)) by (by eapply lookup_lt_Some).
    replace (4 * length (f :: fields) + 2)
      with (4 + (4 * length fields + 2)) by (simpl; lia).
    rewrite replicate_add, run_app.
    destruct (run_field tid data rest f fields s Hth Hlock) as [st Hrun].
    change (replicate 4 tid) with [tid; tid; tid; tid]. rewrite Hrun.
    match goal with
    | |- context [run ?s4 (replicate (4 * length fields + 2) tid)] =>
        specialize (IH s4 (list_lookup_insert_eq _ _ _ Hlt) eq_refl)
    end.
    cbn zeta in IH. destruct IH as (Hsink & Hlock' & Hthreads).
    cbn zeta. rewrite Hsink, Hlock', Hthreads. simpl.
    rewrite list_insert_insert_eq. done.
Qed.

(** The worker model agrees with [write_data_row]: a worker that runs alone
    for the steps of one record has made one call. *)
Lemma run_write_data_row tid data rest s :
  threads s !! tid
  = Some {| th_todo := data :: rest; th_pc := PcArgs fields_to_write |} →
  lock s = None →
  let s' := run s (replicate steps_per_record tid) in
  sink s' = write_data_row (sink s) data
  ∧ lock s' = None
  ∧ threads s'
    = <[tid := {| th_todo := rest; th_pc := PcArgs fields_to_write |}]>
        (threads s).
Proof. apply (run_record tid data rest fields_to_write). Qed.

(** A worker that runs alone until it has finished. *)
Lemma run_alone tid :
  ∀ todo s,
    threads s !! tid = Some (spawn todo) →
    lock s = None →
    let s' := run s (replicate (steps_per_record * length todo) tid) in
    sink s' = foldl write_data_row (sink s) todo
    ∧ lock s' = None
    ∧ threads s' = <[tid := spawn []]> (threads s).
Proof.
  induction todo as [|data rest IH]; intros s Hth Hlock.
  - cbn zeta.
    replace (steps_per_record * length ([] : list (dict ApecData PyVal)))
      with 0 by (simpl; lia).
    simpl. split; [done|]. split; [done|]. symmetry. by apply list_insert_id.
  - assert (Hlt : tid < length (threads s)) by (by eapply lookup_lt_Some).
    replace (steps_per_record * length (data :: rest))
      with (steps_per_record + steps_per_record * length rest)
      by (simpl; lia).
    rewrite replicate_add. cbn zeta. rewrite run_app.
    destruct (run_write_data_row tid data rest s Hth Hlock)
      as (Hsink & Hlock' & Hthreads).
    cbn zeta in Hsink, Hlock', Hthreads.
    pose proof (IH (run s (replicate steps_per_record tid))) as IH'.
    rewrite Hthreads, Hsink in IH'.
    specialize (IH' (list_lookup_insert_eq _ _ _ Hlt) Hlock').
    cbn zeta in IH'. destruct IH' as (-> & -> & ->).
    rewrite list_insert_insert_eq. split; [reflexivity|].
    split; reflexivity.
Qed.

(** All workers, one after another: the sink ends as if the records of the
    workers had been appended by one writer, worker by worker. *)
Lemma run_one_after_another :
  ∀ todos pre s,
    threads s = pre ++ map spawn todos →
    lock s = None →
    let s' := run s (one_after_another (length pre) (map length todos)) in
    sink s' = foldl write_data_row (sink s) (concat todos)
    ∧ lock s' = None
    ∧ threads s' = pre ++ map (fun _ => spawn []) todos.
Proof.
  induction todos as [|todo todos IH]; intros pre s Hth Hlock.
  - cbn. by rewrite Hth.
  - cbn [map one_after_another concat]. cbn zeta. rewrite run_app.
    assert (Hat : threads s !! length pre = Some (spawn todo)).
    { rewrite Hth. apply list_lookup_middle. reflexivity. }
    destruct (run_alone (length pre) todo s Hat Hlock)
      as (Hsink & Hlock' & Hthreads).
    cbn zeta in Hsink, Hlock', Hthreads.
    assert (Hth' :
      threads (run s (replicate (steps_per_record * length todo) (length pre)))
      = (pre ++ [spawn []]) ++ map spawn todos).
    { rewrite Hthreads, Hth. cbn [map].
      rewrite insert_app_r_alt by reflexivity.
      rewrite Nat.sub_diag. cbn. by rewrite <- app_assoc. }
    pose proof (IH (pre ++ [spawn []]) _ Hth' Hlock') as IH'.
    cbn zeta in IH'. rewrite length_app in IH'. cbn [length] in IH'.
    rewrite Nat.add_1_r in IH'. destruct IH' as (-> & -> & ->).
    rewrite Hsink, foldl_app. split; [reflexivity|]. split; [reflexivity|].
    by rewrite <- app_assoc.
Qed.


(** ** What every schedule preserves *)

Lemma init_header_kept name output_dir todos :
  header_kept (os_path_join output_dir (name +:+ ".xlsx"))
    {| sink := MyApecExcel_init name output_dir; lock := None;
       threads := map spawn todos; stores := [] |}.
Proof.
  split; simpl.
  - lia.
  - apply Forall_forall. intros th Hin.
    apply list_elem_of_fmap in Hin as (todo & -> & _). exact I.
  - vm_compute. reflexivity.
  - reflexivity.
Qed.

Lemma write_cell_other_row row col c ws row' col' :
  row ≠ row' → write_cell row col c ws !! (row', col') = ws !! (row', col').
Proof.
  intros Hne. unfold write_cell. destruct col as [col|]; [|done].
  apply lookup_insert_ne. congruence.
Qed.

Lemma step_header_kept file s tid s' :
  header_kept file s → step s tid = Some s' → header_kept file s'.
Proof.
  intros [Hcount Hrows Hheader Hfile]. unfold step.
  destruct (threads s !! tid) as [th|] eqn:Hth; simpl; [|done].
  pose proof (Forall_lookup_1 _ _ _ _ Hrows Hth) as Hpc.
  destruct th as [[|data rest] pc]; simpl in *; [done|].
  destruct pc as [[|f fields]|f fields row|[data_key url_key] fields row
                  |fields|v]; simpl in Hpc.
  - intros [= <-]. split; simpl; try done. by apply Forall_insert.
  - intros [= <-]. split; simpl; try done. by apply Forall_insert.
  - destruct (lock s); [done|]. intros [= <-]. split; simpl; try done.
    by apply Forall_insert.
  - intros [= <-]. split; simpl; try done.
    + by apply Forall_insert.
    + rewrite <- Hheader. unfold sheet_row. apply map_ext. intros col.
      apply write_cell_other_row. lia.
  - intros [= <-]. split; simpl; try done. by apply Forall_insert.
  - intros [= <-]. split; simpl; try done.
    + lia.
    + by apply Forall_insert.
Qed.

Lemma run_header_kept file schedule :
  ∀ s, header_kept file s → header_kept file (run s schedule).
Proof.
  induction schedule as [|tid schedule IH]; intros s Hs; simpl; [done|].
  apply IH. destruct (step s tid) as [s'|] eqn:Hstep; simpl; [|done].
  by eapply step_header_kept.
Qed.

(** Cells are stored one writer at a time: a worker is between taking and
    giving back the lock exactly when it is the holder. *)
Lemma step_lock_respected s tid s' :
  lock_respected s → step s tid = Some s' → lock_respected s'.
Proof.
  intros Hs. unfold step.
  destruct (threads s !! tid) as [th|] eqn:Hth; simpl; [|done].
  pose proof (Hs tid th Hth) as Hme.
  assert (Hlt : tid < length (threads s)) by (by eapply lookup_lt_Some).
  destruct (th_todo th) as [|data rest]; [done|].
  assert (Hupd : ∀ th' lk,
            (in_write_data (th_pc th') = true ↔ lk = Some tid) →
            (lk = lock s ∨
             (∀ t, t ≠ tid → lk ≠ Some t) ∧ (∀ t, t ≠ tid → lock s ≠ Some t)) →
            ∀ t x, <[tid := th']> (threads s) !! t = Some x →
                   (in_write_data (th_pc x) = true ↔ lk = Some t)).
  { intros th' lk Hnew Hlk t x Hx.
    destruct (decide (t = tid)) as [->|Hne].
    - rewrite list_lookup_insert_eq in Hx by done. by injection Hx as <-.
    - rewrite list_lookup_insert_ne in Hx by done.
      destruct Hlk as [->|[Hn Ho]]; [by apply Hs|].
      rewrite (Hs t x Hx). split; intros H; exfalso.
      + by apply (Ho t).
      + by apply (Hn t). }
  destruct (th_pc th) as [[|f fields]|f fields row|[data_key url_key] fields row
                          |fields|v]; simpl in Hme.
  - intros [= <-]. intros t x Hx. simpl in *.
    eapply (Hupd _ (lock s)); [|by left|exact Hx]. simpl. exact Hme.
  - intros [= <-]. intros t x Hx. simpl in *.
    eapply (Hupd _ (lock s)); [|by left|exact Hx]. simpl. exact Hme.
  - destruct (lock s) as [holder|] eqn:Hlock; [done|].
    intros [= <-]. intros t x Hx. simpl in *.
    eapply (Hupd _ (Some tid)); [|right|exact Hx]; simpl; [done|].
    split; intros t' Ht'; congruence.
  - intros [= <-]. intros t x Hx. simpl in *.
    eapply (Hupd _ (lock s)); [|by left|exact Hx]. simpl. exact Hme.
  - intros [= <-]. intros t x Hx. simpl in *.
    assert (Hheld : lock s = Some tid) by (by apply Hme).
    eapply (Hupd _ None); [|right|exact Hx]; simpl.
    + split; intros; done.
    + split; intros t' Ht'; congruence.
  - intros [= <-]. intros t x Hx. simpl in *.
    eapply (Hupd _ (lock s)); [|by left|exact Hx]. simpl. exact Hme.
Qed.

Lemma run_lock_respected schedule :
  ∀ s, lock_respected s → lock_respected (run s schedule).
Proof.
  induction schedule as [|tid schedule IH]; intros s Hs; simpl; [done|].
  apply IH. destruct (step s tid) as [s'|] eqn:Hstep; simpl; [|done].
  by eapply step_lock_respected.
Qed.

Lemma init_lock_respected self todos :
  lock_respected {| sink := self; lock := None; threads := map spawn todos;
                    stores := [] |}.
Proof.
  intros tid th Hth. simpl in *.
  apply list_lookup_fmap_Some in Hth as (todo & -> & _). simpl. done.
Qed.

(** ** C4 *)

(** C4, as the code has it: the lock is taken inside each call of
    [Utils.write_data], so the cells are stored one writer at a time, but
    [self.row_count] is read before the lock is taken and incremented after
    the last cell, outside the lock.  In the schedule [Example.race] both
    workers complete their append, both have stored all their cells in row 1,
    the record of the first is overwritten by the record of the second, and
    row 2 stays empty while the counter has moved to 3. *)
Theorem concurrent_appends_share_a_row :
  let s := run Example.two_workers Example.race in
  (∀ k, lock_respected (run Example.two_workers (take k Example.race)))
  ∧ all_finished s = true
  ∧ map (fun st => (st_tid st, st_row st)) (stores s)
    = replicate 10 (0, 1) ++ replicate 10 (1, 1)
  ∧ sheet_row (worksheet (sink s)) 1 = record_cells Example.record_2
  ∧ sheet_row (worksheet (sink s)) 2 = replicate 10 None
  ∧ row_count (sink s) = 3.
Proof.
  split.
  - intros k. apply run_lock_respected.
    apply (init_lock_respected _ [[Example.record_1]; [Example.record_2]]).
  - vm_compute. repeat split; reflexivity.
Qed.

(** ** Finalising *)

#[local] Arguments close_handler : simpl never.

Lemma close_loop_artifact env fuel :
  ∀ n self evs a,
    close_loop env fuel n self = Some (evs, a) → a = artifact_of self.
Proof.
  induction fuel as [|fuel IH]; intros n self evs a; simpl; [done|].
  destruct (close_outcome env n);
    try (destruct (close_loop env fuel (S n) self) as [[evs' a']|] eqn:Hrec;
         simpl; [|done]; intros [= <- <-]; by eapply IH).
  by intros [= <- <-].
Qed.

Lemma close_handler_quiet o :
  saves (close_handler o) = 0 ∧ skips (close_handler o) = 0.
Proof.
  unfold close_handler. destruct o as [|errno msg|e]; [done| |done].
  by destruct (decide (errno = EACCES)).
Qed.

Lemma saves_app tr1 tr2 : saves (tr1 ++ tr2) = saves tr1 + saves tr2.
Proof. unfold saves. by rewrite filter_app, length_app. Qed.

Lemma skips_app tr1 tr2 : skips (tr1 ++ tr2) = skips tr1 + skips tr2.
Proof. unfold skips. by rewrite filter_app, length_app. Qed.

Lemma close_loop_quiet env fuel :
  ∀ n self evs a,
    close_loop env fuel n self = Some (evs, a) →
    saves evs = 0 ∧ skips evs = 0.
Proof.
  induction fuel as [|fuel IH]; intros n self evs a; simpl; [done|].
  assert (Hretry : ∀ o,
    close_loop env fuel (S n) self
      ≫= (λ '(evs0, a0), Some (EvClose n :: close_handler o ++ evs0, a0))
    = Some (evs, a) → saves evs = 0 ∧ skips evs = 0).
  { intros o.
    destruct (close_loop env fuel (S n) self) as [[evs' a']|] eqn:Hrec;
      simpl; [|done].
    intros [= <- <-]. destruct (IH _ _ _ _ Hrec) as [Hs Hk].
    destruct (close_handler_quiet o) as [Hs' Hk'].
    change (EvClose n :: ?l) with ([EvClose n] ++ l).
    rewrite !saves_app, !skips_app, Hs, Hk, Hs', Hk'. done. }
  destruct (close_outcome env n) as [|errno msg|e] eqn:Ho.
  - by intros [= <- <-].
  - apply (Hretry (CloseOSError errno msg)).
  - apply (Hretry (CloseException e)).
Qed.

(** While [close] is refused for lack of permission the loop logs, prompts
    and tries again; the first attempt that succeeds ends it, and the file
    holds the sheet as it was handed to [save_workbook]. *)
Lemma close_loop_permission env self n :
  ∀ fuel n0,
    (∀ k, (n0 ≤ k < n)%nat →
          ∃ msg, close_outcome env k = CloseOSError EACCES msg) →
    close_outcome env n = CloseOk →
    (n0 ≤ n)%nat → (n - n0 < fuel)%nat →
    close_loop env fuel n0 self
    = Some (flat_map
              (fun k =>
                 [EvClose k;
                  EvLog ERROR "PermissionError: Please close the Excel file if it is open and press Enter to retry.";
                  EvPrompt "Please close the Excel file and press Enter to retry..."])
              (seq n0 (n - n0)) ++ [EvClose n],
            artifact_of self).
Proof.
  induction fuel as [|fuel IH]; intros n0 Hfail Hok Hle Hfuel; [lia|].
  simpl. destruct (decide (n0 = n)) as [->|Hne].
  - rewrite Hok, Nat.sub_diag. done.
  - destruct (Hfail n0) as [msg Hmsg]; [lia|]. rewrite Hmsg.
    rewrite (IH (S n0)); try lia; try done.
    + simpl. replace (n - n0) with (S (n - S n0)) by lia. simpl.
      reflexivity.
    + intros k Hk. apply Hfail. lia.
Qed.

Lemma close_loop_retrying env self :
  ∀ fuel n0,
    (∀ k, (n0 ≤ k < n0 + fuel)%nat → close_outcome env k ≠ CloseOk) →
    close_loop env fuel n0 self = None.
Proof.
  induction fuel as [|fuel IH]; intros n0 Hfail; simpl; [done|].
  pose proof (Hfail n0) as H0.
  destruct (close_outcome env n0); [exfalso; apply H0; [lia|done]| |];
    rewrite IH; try done; intros k Hk; apply Hfail; lia.
Qed.

Lemma close_loop_succeeds env self n :
  close_outcome env n = CloseOk →
  ∀ fuel n0, (n0 ≤ n)%nat → (n - n0 < fuel)%nat →
             ∃ r, close_loop env fuel n0 self = Some r.
Proof.
  intros Hok. induction fuel as [|fuel IH]; intros n0 Hle Hfuel; [lia|].
  simpl. destruct (decide (n0 = n)) as [->|Hne].
  - rewrite Hok. by eexists.
  - destruct (IH (S n0)) as [[evs a] Hr]; [lia|lia|].
    rewrite Hr. simpl. destruct (close_outcome env n0); by eexists.
Qed.

(** ** Orchestrator *)

(** What a returning call of [process_and_scrape_manufacturer_data] has
    done. *)
Lemma process_and_scrape_returns env sch d output_dir r :
  process_and_scrape_manufacturer_data env sch d output_dir = Some r →
  ∃ traces evs a,
    let workbook := MyApecExcel_init "APEC Auto Data" output_dir in
    let s := run {| sink := workbook; lock := None;
                    threads := map (fun tr => spawn (appends tr)) traces;
                    stores := [] |} (interleaving sch) in
    run_tasks_of env (task_fuel sch)
      (create_subfolder env output_dir "APEC Screenshots") (fan_out d)
    = Some traces
    ∧ all_finished s = true
    ∧ close_loop env (close_fuel sch) 0 (add_table (sink s)) = Some (evs, a)
    ∧ r = {| run_main :=
               EvCreateWorkbook (output_file workbook)
               :: map (fun '(keyword, url) => EvSubmit keyword url) (fan_out d)
               ++ (EvSaveWorkbook :: evs) ++ [EvCleanup];
             run_tasks := traces;
             run_joined := Some s;
             run_files := [a] |}.
Proof.
  unfold process_and_scrape_manufacturer_data, save_workbook.
  destruct (run_tasks_of env _ _ _) as [traces|]; simpl; [|done].
  destruct (all_finished _) eqn:Hfin; [|done].
  destruct (close_loop env _ 0 _) as [[evs a]|] eqn:Hclose; simpl; [|done].
  intros [= <-]. by exists traces, evs, a.
Qed.

Lemma saves_submits (tasks : list (string * string)) :
  saves (map (fun '(keyword, url) => EvSubmit keyword url) tasks) = 0
  ∧ skips (map (fun '(keyword, url) => EvSubmit keyword url) tasks) = 0.
Proof. induction tasks as [|[k u] tasks IH]; simpl; done. Qed.

(** ** C6 *)

(** C6: a call of [process_and_scrape_manufacturer_data] that returns has
    called [save_workbook] exactly once, after all tasks were submitted and
    in a state in which every worker has finished; the file written holds the
    sheet of that state.  While [close] is refused for lack of permission,
    [save_workbook] logs, prompts and tries again: when attempt [n] is the
    first to succeed it returns after [n] prompts with the sheet unchanged,
    and as long as no attempt succeeds it neither returns nor raises. *)
Theorem finalize_once_after_join :
  ∀ env sch d output_dir,
    (∀ r,
       process_and_scrape_manufacturer_data env sch d output_dir = Some r →
       ∃ s evs a,
         run_joined r = Some s
         ∧ all_finished s = true
         ∧ run_main r
           = EvCreateWorkbook
               (os_path_join output_dir "APEC Auto Data.xlsx")
             :: map (fun '(keyword, url) => EvSubmit keyword url) (fan_out d)
             ++ (EvSaveWorkbook :: evs) ++ [EvCleanup]
         ∧ saves (run_main r) = 1
         ∧ run_files r = [a]
         ∧ art_sheet a = worksheet (sink s)
         ∧ art_rows a = row_count (sink s))
    ∧ (∀ self n fuel,
         (∀ k, k < n → ∃ msg, close_outcome env k = CloseOSError EACCES msg) →
         close_outcome env n = CloseOk →
         n < fuel →
         save_workbook env fuel self
         = Some (EvSaveWorkbook :: permission_retries n ++ [EvClose n],
                 artifact_of (add_table self)))
    ∧ (∀ self fuel,
         (∀ k, k < fuel → close_outcome env k ≠ CloseOk) →
         save_workbook env fuel self = None).
Proof.
  intros env sch d output_dir. split; [|split].
  - intros r Hr.
    destruct (process_and_scrape_returns _ _ _ _ _ Hr)
      as (traces & evs & a & _ & Hfin & Hclose & ->).
    eexists _, evs, a. split; [reflexivity|]. split; [exact Hfin|].
    split; [reflexivity|].
    pose proof (close_loop_artifact _ _ _ _ _ _ Hclose) as ->.
    destruct (close_loop_quiet _ _ _ _ _ _ Hclose) as [Hs _].
    destruct (saves_submits (fan_out d)) as [Hsub _].
    split; [|done]. simpl.
    change (EvCreateWorkbook ?f :: ?l) with ([EvCreateWorkbook f] ++ l).
    rewrite !saves_app, Hsub.
    change (EvSaveWorkbook :: evs ++ [EvCleanup])
      with ([EvSaveWorkbook] ++ evs ++ [EvCleanup]).
    rewrite !saves_app, Hs. reflexivity.
  - intros self n fuel Hfail Hok Hfuel. unfold save_workbook.
    rewrite (close_loop_permission env (add_table self) n fuel 0);
      try done; try lia.
    + simpl. by rewrite Nat.sub_0_r.
    + intros k Hk. apply Hfail. lia.
  - intros self fuel Hfail. unfold save_workbook.
    rewrite close_loop_retrying; [done|].
    intros k Hk. apply Hfail. lia.
Qed.

(** ** C8 *)

Lemma get_manufacturer_urls_skips env n keyword :
  skips (get_manufacturer_urls env n keyword).2 = 0.
Proof.
  unfold get_manufacturer_urls, discovery_body. unfold_bind.
  destruct (discovery_get env n _) as [page|e]; simpl; [|done].
  destruct (wait_present (p_links page)); simpl; [|done].
  case_bool_decide; simpl; [done|].
  destruct (negb _ && _); simpl; [done|].
  destruct (links_loop env (p_links page) []) as [urls [|e]]; simpl; done.
Qed.

(** One warning for each keyword that is empty once trimmed. *)
Lemma fetch_loop_skips env keywords :
  ∀ n d, skips (fetch_loop env n keywords d).2 = length (blank keywords).
Proof.
  unfold blank.
  induction keywords as [|keyword rest IH]; intros n d; simpl; [done|].
  destruct (Py.truthy (Py.strip keyword)) eqn:Hk; simpl.
  - pose proof (get_manufacturer_urls_skips env n (Py.strip keyword)) as Hg.
    destruct (get_manufacturer_urls env n (Py.strip keyword)) as [urls evs].
    specialize (IH (S n) (dict_set (Py.strip keyword) urls d)).
    destruct (fetch_loop env (S n) rest _) as [d' evs']. simpl in *.
    by rewrite skips_app, Hg, IH.
  - specialize (IH n d).
    destruct (fetch_loop env n rest d) as [d' evs']. simpl in *.
    unfold skips in *. rewrite filter_cons_True by done. simpl.
    by rewrite IH.
Qed.

Lemma fetch_all_skips env keywords :
  skips (fetch_all_manufacturer_urls env keywords).2 = length (blank keywords).
Proof.
  unfold fetch_all_manufacturer_urls.
  rewrite <- (fetch_loop_skips env keywords 0 []).
  destruct (fetch_loop env 0 keywords []) as [d evs]. simpl.
  rewrite skips_app. replace (skips [EvQuit]) with 0 by reflexivity. lia.
Qed.

(** The dictionary is empty exactly when no keyword is searched. *)
Lemma fetch_all_truthy env keywords :
  dict_truthy (fetch_all_manufacturer_urls env keywords).1
  = match searched keywords with [] => false | _ => true end.
Proof.
  pose proof (fetch_all_keys env keywords) as Hkeys.
  destruct (fetch_all_manufacturer_urls env keywords).1 as [|[k v] d];
    destruct (searched keywords) as [|k' ks]; simpl; try done.
  - exfalso. apply (elem_of_nil k'). apply Hkeys. apply list_elem_of_here.
  - exfalso. apply (elem_of_nil k). apply Hkeys. apply list_elem_of_here.
Qed.

(** Under the schedule [settled] the workers all finish. *)
Lemma settled_finishes self traces :
  let s := run {| sink := self; lock := None;
                  threads := map (fun tr => spawn (appends tr)) traces;
                  stores := [] |}
               (one_after_another 0
                  (map (fun tr => length (appends tr)) traces)) in
  all_finished s = true
  ∧ sink s = foldl write_data_row self (concat (map appends traces)).
Proof.
  pose proof (run_one_after_another (map appends traces) []
                {| sink := self; lock := None;
                   threads := map (fun tr => spawn (appends tr)) traces;
                   stores := [] |}) as H.
  simpl in H. rewrite !map_map in H.
  destruct (H eq_refl eq_refl) as (Hsink & _ & Hthreads).
  cbn zeta. split; [|exact Hsink].
  unfold all_finished. rewrite Hthreads.
  apply forallb_forall. intros th Hin.
  apply in_map_iff in Hin as (tr & <- & _). reflexivity.
Qed.

#[local] Arguments close_loop : simpl never.
#[local] Arguments one_after_another : simpl never.
#[local] Arguments MyApecExcel_init : simpl never.

(** With tasks that return and a [close] that succeeds at some attempt, the
    orchestrator returns under the schedule [settled]. *)
Lemma process_and_scrape_settles env fuel d output_dir traces n :
  run_tasks_of env fuel (create_subfolder env output_dir "APEC Screenshots")
    (fan_out d) = Some traces →
  close_outcome env n = CloseOk →
  ∃ r,
    process_and_scrape_manufacturer_data env (settled fuel traces (S n)) d
      output_dir = Some r.
Proof.
  intros Htasks Hok.
  unfold process_and_scrape_manufacturer_data, save_workbook. simpl.
  rewrite Htasks. simpl.
  destruct (settled_finishes (MyApecExcel_init "APEC Auto Data" output_dir)
              traces) as [Hfin _].
  cbn zeta in Hfin. rewrite Hfin.
  match goal with
  | |- context [close_loop env (S n) 0 ?self] =>
      destruct (close_loop_succeeds env self n Hok (S n) 0)
        as [[cevs a] Hclose]; [lia|lia|]; rewrite Hclose
  end.
  simpl. by eexists.
Qed.

(** C8, as the code has it: with an empty keyword list the run only logs a
    warning.  Otherwise a run that returns has warned once for each keyword
    that is empty once trimmed; when every keyword is of that kind it has
    written no file; when some keyword is searched it has written exactly one
    file, named after the product label, whose first row is the header row.
    And such a run does return: when the tasks' loops end within the fuel
    and some attempt to close the workbook succeeds, the schedule [settled]
    makes [process_keywords] return. *)
Theorem run_no_op_or_one_artifact :
  ∀ env sch keywords output_dir,
    (keywords = [] →
     process_keywords env sch keywords output_dir
     = Some {| run_main :=
                 [EvLog WARNING "No keywords provided. Skipping data fetch."];
               run_tasks := []; run_joined := None; run_files := [] |})
    ∧ (∀ r,
         keywords ≠ [] →
         process_keywords env sch keywords output_dir = Some r →
         skips (run_main r) = length (blank keywords)
         ∧ match searched keywords with
           | [] => run_files r = []
           | _ =>
               ∃ a,
                 run_files r = [a]
                 ∧ art_file a = os_path_join output_dir "APEC Auto Data.xlsx"
                 ∧ sheet_row (art_sheet a) 0 = header_cells
           end)
    ∧ (∀ traces n,
         searched keywords ≠ [] →
         run_tasks_of env (task_fuel sch)
           (create_subfolder env output_dir "APEC Screenshots")
           (fan_out (fetch_all_manufacturer_urls env keywords).1)
         = Some traces →
         close_outcome env n = CloseOk →
         ∃ r,
           process_keywords env (settled (task_fuel sch) traces (S n))
             keywords output_dir = Some r).
Proof.
  intros env sch keywords output_dir. split; [|split].
  - by intros ->.
  - intros r Hne Hrun. unfold process_keywords in Hrun.
    destruct keywords as [|keyword rest]; [done|].
    pose proof (fetch_all_skips env (keyword :: rest)) as Hskips.
    pose proof (fetch_all_truthy env (keyword :: rest)) as Htruthy.
    destruct (fetch_all_manufacturer_urls env (keyword :: rest)) as [d evs].
    simpl in Hskips, Htruthy. rewrite Htruthy in Hrun.
    destruct (searched (keyword :: rest)) as [|k ks].
    + injection Hrun as <-. simpl. done.
    + destruct (process_and_scrape_manufacturer_data env sch d output_dir)
        as [r'|] eqn:Hr'; simpl in Hrun; [|done].
      injection Hrun as <-. simpl.
      destruct (process_and_scrape_returns _ _ _ _ _ Hr')
        as (traces & cevs & a & _ & _ & Hclose & ->). simpl.
      pose proof (close_loop_artifact _ _ _ _ _ _ Hclose) as ->.
      destruct (close_loop_quiet _ _ _ _ _ _ Hclose) as [_ Hq].
      destruct (saves_submits (fan_out d)) as [_ Hsub].
      split.
      * change (EvCreateWorkbook ?f :: ?l) with ([EvCreateWorkbook f] ++ l).
        change (EvSaveWorkbook :: cevs ++ [EvCleanup])
          with ([EvSaveWorkbook] ++ cevs ++ [EvCleanup]).
        rewrite !skips_app, Hskips, Hsub, Hq.
        repeat match goal with
               | |- context [skips [?ev]] =>
                   replace (skips [ev]) with 0 by reflexivity
               end.
        lia.
      * eexists. split; [reflexivity|].
        pose proof (run_header_kept _ (interleaving sch) _
                      (init_header_kept "APEC Auto Data" output_dir
                         (map appends traces))) as [_ _ Hheader Hfile].
        rewrite map_map in Hheader, Hfile. simpl. split; [exact Hfile|].
        exact Hheader.
  - intros traces n Hsearched Htasks Hok. unfold process_keywords.
    destruct keywords as [|keyword rest]; [done|].
    pose proof (fetch_all_truthy env (keyword :: rest)) as Htruthy.
    destruct (fetch_all_manufacturer_urls env (keyword :: rest)) as [d evs].
    simpl in Htruthy, Htasks. rewrite Htruthy.
    destruct (searched (keyword :: rest)) as [|k ks]; [done|].
    destruct (process_and_scrape_settles env (task_fuel sch) d output_dir
                traces n Htasks Hok) as [r Hr].
    rewrite Hr. simpl. by eexists.
Qed.

(** ** Concrete runs *)

Lemma finalize_once_after_join_witness :
  save_workbook Example.env 5 (MyApecExcel_init "APEC Auto Data" "out")
  = Some (EvSaveWorkbook :: permission_retries 2 ++ [EvClose 2],
          artifact_of (add_table (MyApecExcel_init "APEC Auto Data" "out"))).
Proof.
  apply (finalize_once_after_join Example.env Example.sch [] "out").
  - intros k Hk. exists "Permission denied".
    destruct k as [|[|k]]; [reflexivity | reflexivity | lia].
  - reflexivity.
  - lia.
Defined.

Lemma discovery_failure_is_contained_witness :
  get_manufacturer_urls Example.env_stale 0 "brake pad"
  = ([Example.url_a],
     [EvGet (Example.search_url "brake pad")]
     ++ [EvLog ERROR
           ("Error extracting manufacturer links for keyword "
            +:+ "brake pad" +:+ ": "
            +:+ exn_str (OtherException "stale element reference"))]).
Proof.
  apply (discovery_failure_is_contained Example.env_stale).
  vm_compute. reflexivity.
Defined.

Lemma one_entry_per_trimmed_keyword_witness :
  dict_get "brake pad"
    (fetch_all_manufacturer_urls Example.env
       ["brake pad"; " "; "x"; "brake pad "]).1
  = Some (get_manufacturer_urls Example.env 2 "brake pad").1.
Proof.
  pose proof (one_entry_per_trimmed_keyword Example.env
                ["brake pad"; " "; "x"; "brake pad "]) as H.
  cbv zeta in H. destruct H as (_ & _ & Hlast & _).
  apply (Hlast ["brake pad"; "x"] "brake pad" []).
  - reflexivity.
  - apply not_elem_of_nil.
Defined.

Lemma run_no_op_or_one_artifact_witness :
  ∃ r,
    process_keywords Example.env
      (settled 5
         [default []
            (snd <$> scrape_manufacturer_data Example.env Example.url_a
                       "brake pad" "out/APEC Screenshots"
                       (DriverPool_init max_workers) 5);
          default []
            (snd <$> scrape_manufacturer_data Example.env Example.url_b
                       "brake pad" "out/APEC Screenshots"
                       (DriverPool_init max_workers) 5)]
         3)
      ["brake pad"; " "] "out"
    = Some r.
Proof.
  pose proof (run_no_op_or_one_artifact Example.env Example.sch
                ["brake pad"; " "] "out") as (_ & _ & Hsettles).
  apply (Hsettles _ 2).
  - vm_compute. discriminate.
  - vm_compute. reflexivity.
  - reflexivity.
Defined.

(** C8, as stated, fails: a keyword list that is not empty but holds only a
    blank keyword gives a run that warns and writes no file. *)
Lemma blank_keywords_counterexample :
  process_keywords Example.env Example.sch [" "] "out"
  = Some {| run_main := [skip_warning; EvQuit];
            run_tasks := []; run_joined := None; run_files := [] |}.
Proof. vm_compute. reflexivity. Qed.

(** * Further properties of the code *)

(** ** Row parser *)

(** X1: [safe_extract_text] never raises when the transform raises nothing
    but [ValueError] (as the five transforms of [parse_row_data] do), and a
    cell that is not found gives [None]. *)
Theorem safe_extract_text_never_raises :
  ∀ row k f,
    only_value_errors f →
    (∃ v, safe_extract_text row k f = Ok v)
    ∧ (∀ e, find_cell row k = Raise e → safe_extract_text row k f = Ok VNone).
Proof.
  intros row k f Hf. split.
  - by apply safe_extract_text_returns.
  - intros e He. by eapply safe_extract_text_missing.
Qed.

Lemma safe_extract_text_never_raises_witness :
  (∃ v, safe_extract_text Example.row_without_name 8 price_transform = Ok v)
  ∧ (∀ e, find_cell Example.row_without_name 8 = Raise e →
          safe_extract_text Example.row_without_name 8 price_transform
          = Ok VNone).
Proof.
  apply (safe_extract_text_never_raises Example.row_without_name 8
           price_transform).
  apply price_transform_errors.
Defined.

(** X2: when the name cell is found, [parse_row_data] returns a record that
    is attributed to the keyword and the category it was called with and has
    a value under every field that is written to the sheet.  With a link in
    the name cell the name is the text of the first link, as it stands, and
    its target is stored under [NAME_URL]; without one the name is the
    trimmed text of the cell and the record has no [NAME_URL] key. *)
Theorem parsed_record_name_and_attribution :
  ∀ row category keyword name_element,
    find_cell row 3 = Ok name_element →
    ∃ data,
      parse_row_data row category keyword = Ok data
      ∧ dict_get KEYWORD data = Some (VStr keyword)
      ∧ dict_get CATEGORY data = Some (VStr category)
      ∧ (∀ f, f ∈ fields_to_write → is_Some (dict_get f.1 data))
      ∧ match el_anchors name_element with
        | hyperlink :: _ =>
            dict_get NAME data = Some (VStr (a_text hyperlink))
            ∧ dict_get NAME_URL data
              = Some (match a_href hyperlink with
                      | Some u => VStr u
                      | None => VNone
                      end)
        | [] =>
            dict_get NAME data = Some (VStr (Py.strip (el_text name_element)))
            ∧ dict_get NAME_URL data = None
        end.
Proof.
  intros row category keyword name_element Hname.
  unfold parse_row_data. unfold_bind.
  destruct (safe_extract_text_returns row 1 _ str_transform_errors) as [? ->].
  destruct (safe_extract_text_returns row 2 _ str_transform_errors) as [? ->].
  rewrite Hname.
  destruct (safe_extract_text_returns row 4 _ weight_transform_errors) as [? ->].
  destruct (safe_extract_text_returns row 5 _ availability_transform_errors)
    as [? ->].
  destruct (safe_extract_text_returns row 6 _ lead_time_transform_errors)
    as [? ->].
  destruct (safe_extract_text_returns row 7 _ str_transform_errors) as [? ->].
  destruct (safe_extract_text_returns row 8 _ price_transform_errors) as [? ->].
  eexists. split; [reflexivity|].
  destruct (el_anchors name_element) as [|hyperlink others]; cbn.
  - repeat split; try reflexivity.
    intros f Hf. unfold fields_to_write in Hf.
    repeat (apply elem_of_cons in Hf as [->|Hf]; [by eexists|]).
    by apply elem_of_nil in Hf.
  - repeat split; try reflexivity.
    intros f Hf. unfold fields_to_write in Hf.
    repeat (apply elem_of_cons in Hf as [->|Hf]; [by eexists|]).
    by apply elem_of_nil in Hf.
Qed.

Lemma parsed_record_name_and_attribution_witness :
  ∃ data,
    parse_row_data Example.row_with_link "Requested article" "brake pad"
    = Ok data
    ∧ dict_get KEYWORD data = Some (VStr "brake pad")
    ∧ dict_get CATEGORY data = Some (VStr "Requested article")
    ∧ (∀ f, f ∈ fields_to_write → is_Some (dict_get f.1 data))
    ∧ dict_get NAME data = Some (VStr "Brake pad ")
    ∧ dict_get NAME_URL data = Some (VStr "https://apecauto.com/part/A-1").
Proof.
  destruct (parsed_record_name_and_attribution Example.row_with_link
              "Requested article" "brake pad"
              {| el_text := " Brake pad ";
                 el_icons := [];
                 el_anchors :=
                   [{| a_text := "Brake pad ";
                       a_href := Some "https://apecauto.com/part/A-1" |}] |}
              eq_refl)
    as (data & Hparse & Hk & Hc & Hall & Hn & Hu).
  exists data. repeat split; assumption.
Defined.




(** What [safe_extract_text] does with a cell it has found. *)
Lemma safe_extract_text_found row k f element :
  find_cell row k = Ok element →
  safe_extract_text row k f
  = if first_icon_nal element then Ok VMark
    else
      try_except
        (transformed_text ← f (Py.strip (el_text element));
         match transformed_text with
         | VNone => Ok (VStr (Py.strip (el_text element)))
         | VStr EmptyString => Ok (VStr (Py.strip (el_text element)))
         | v => Ok v
         end)
        catches_lookup_or_value (fun _ => Ok VNone).
Proof.
  intros Hcell. unfold safe_extract_text, first_icon_nal. rewrite Hcell. simpl.
  destruct (el_icons element) as [|[cls|] others]; try done.
  assert (Hc : Py.contains "icon-nal" cls = true → Py.truthy cls = true)
    by (by destruct cls).
  destruct (Py.contains "icon-nal" cls).
  - by rewrite Hc.
  - by rewrite andb_false_r.
Qed.

Lemma isdecimal_isdigit s : Py.isdecimal s = true → Py.isdigit s = true.
Proof.
  destruct s as [|c s]; [done|]. unfold Py.isdecimal, Py.isdigit.
  generalize (String c s). clear. intros s.
  induction s as [|c s IH]; simpl; [done|].
  intros H. apply andb_true_iff in H as [Hc Hs].
  unfold Py.isdigit_ch. rewrite Hc. simpl. by apply IH.
Qed.

Lemma digits_val_nonneg s :
  ∀ acc, (0 ≤ acc)%Z → Py.forallb_str Py.isdecimal_ch s = true →
         (0 ≤ Py.digits_val acc s)%Z.
Proof.
  induction s as [|c s IH]; intros acc Hacc; simpl; [done|].
  intros H. apply andb_true_iff in H as [Hc Hs]. apply IH; [|done].
  unfold Py.isdecimal_ch in Hc. apply andb_true_iff in Hc as [Hlo _].
  apply Nat.leb_le in Hlo. unfold Py.digit_val. lia.
Qed.

(** X4: the availability and lead-time fields of a cell without the icon
    mark.  With [text] the trimmed text of the cell: a non-empty text of
    decimal digits gives the integer it denotes, which is never negative; a
    text that [isdigit] accepts and [int] does not (a superscript digit)
    gives [None], the [ValueError] being caught; any other text, the empty
    one included, is kept as text. *)
Theorem integer_field_value :
  ∀ row k element,
    find_cell row k = Ok element →
    first_icon_nal element = false →
    let text := Py.strip (el_text element) in
    let value :=
      if Py.isdecimal text then VInt (Py.digits_val 0 text)
      else if Py.isdigit text then VNone else VStr text in
    safe_extract_text row k availability_transform = Ok value
    ∧ safe_extract_text row k lead_time_transform = Ok value
    ∧ ∀ n, value = VInt n → (0 ≤ n)%Z.
Proof.
  intros row k element Hcell Hicon text value.
  assert (Hav : safe_extract_text row k availability_transform = Ok value).
  { rewrite (safe_extract_text_found _ _ _ _ Hcell), Hicon.
    unfold availability_transform, py_int, Py.int_of_digits. subst value.
    fold text. destruct (Py.isdecimal text) eqn:Hdec.
    - by rewrite (isdecimal_isdigit _ Hdec).
    - by destruct (Py.isdigit text). }
  split; [exact Hav|]. split; [exact Hav|].
  intros n. subst value. destruct (Py.isdecimal text) eqn:Hdec.
  - intros [= <-]. apply digits_val_nonneg; [lia|].
    unfold Py.isdecimal in Hdec. by destruct text.
  - by destruct (Py.isdigit text).
Qed.

Lemma integer_field_value_witness :
  safe_extract_text (Example.row_with_price "7") 5 availability_transform
  = Ok (VInt 12)
  ∧ safe_extract_text (Example.row_with_price "7") 5 lead_time_transform
    = Ok (VInt 12)
  ∧ ∀ n, VInt 12 = VInt n → (0 ≤ n)%Z.
Proof.
  apply (integer_field_value (Example.row_with_price "7") 5
           {| el_text := "12"; el_icons := []; el_anchors := [] |}).
  - reflexivity.
  - reflexivity.
Defined.

(** X5: the price cell is read exactly as the weight cell is: the two
    [replace] calls of [price_transform] change nothing in any text that
    reaches them. *)
Theorem price_cell_read_as_weight_cell :
  ∀ row k,
    safe_extract_text row k price_transform
    = safe_extract_text row k weight_transform.
Proof.
  intros row k. unfold safe_extract_text.
  destruct (find_cell row k) as [element|e]; [|done]. simpl.
  by rewrite price_transform_is_weight_transform.
Qed.

(** X6: a weight or price cell (without the icon mark) whose trimmed text
    holds any character that is neither a digit nor a dot, such as a sign, a
    comma, a currency symbol or an inner blank, is kept as that text. *)
Theorem non_numeric_text_is_kept :
  ∀ row k element,
    find_cell row k = Ok element →
    first_icon_nal element = false →
    Py.forallb_str digit_or_dot (Py.strip (el_text element)) = false →
    safe_extract_text row k weight_transform
    = Ok (VStr (Py.strip (el_text element)))
    ∧ safe_extract_text row k price_transform
      = Ok (VStr (Py.strip (el_text element))).
Proof.
  intros row k element Hcell Hicon Hother.
  assert (Hw : weight_transform (Py.strip (el_text element)) = Ok VNone).
  { unfold weight_transform.
    destruct (Py.truthy _ && Py.isdigit _) eqn:Hguard; [|done].
    apply andb_true_iff in Hguard as [_ Hd].
    apply isdigit_forallb, guard_digits_or_dots in Hd. congruence. }
  rewrite !(safe_extract_text_found _ _ _ _ Hcell), Hicon.
  rewrite price_transform_is_weight_transform, Hw. done.
Qed.

Lemma non_numeric_text_is_kept_witness :
  safe_extract_text Example.row_with_link 8 weight_transform
  = Ok (VStr "12,5")
  ∧ safe_extract_text Example.row_with_link 8 price_transform
    = Ok (VStr "12,5").
Proof.
  apply (non_numeric_text_is_kept Example.row_with_link 8
           {| el_text := "12,5"; el_icons := []; el_anchors := [] |});
    reflexivity.
Defined.

(** ** Pagination extractor *)

#[local] Arguments Py.str_in_list : simpl never.
#[local] Arguments parse_row_data : simpl never.
#[local] Arguments mfr_value_of : simpl never.
#[local] Arguments os_path_join : simpl never.
#[local] Arguments screenshot_name : simpl never.

(** X7: when the title of the very first group of a manufacturer cannot be
    read, the handler of the group loop fails in turn (it formats
    [category_name], which is still unbound), the exception leaves both
    loops and the whole scrape of the manufacturer ends there: nothing is
    appended, though eligible groups may follow, no further page is asked
    for, one error is logged for the URL and the session is released. *)
Theorem untitled_first_group_aborts :
  ∀ env url keyword folder pool fuel driver pool1 page group rest e,
    acquire pool = Some (driver, pool1) →
    navigate env url = Ok page →
    p_groups page = group :: rest →
    g_title group = Raise e →
    ∃ tr,
      scrape_manufacturer_data env url keyword folder pool (S fuel)
      = Some (release driver pool1, tr)
      ∧ appends tr = []
      ∧ clicks tr = 0
      ∧ visits tr = [p_url page]
      ∧ logged ERROR tr
        = ["Error scraping data from " +:+ url
           +:+ ": cannot access local variable 'category_name'"].
Proof.
  intros env url keyword folder pool fuel driver pool1 page group rest e
    Hacq Hnav Hgroups Htitle.
  destruct page as [current_url links label groups next]. simpl in *.
  subst groups.
  unfold scrape_manufacturer_data, scrape_body. unfold_bind.
  rewrite Hacq, Hnav. simpl.
  destruct (mfr_value_of_returns current_url) as [mfr_value ->].
  rewrite Htitle. simpl.
  eexists. split; [reflexivity|]. repeat split; reflexivity.
Qed.

Lemma untitled_first_group_aborts_witness :
  ∃ tr,
    scrape_manufacturer_data Example.env_c Example.url_c "core" "shots"
      (DriverPool_init 3) 1
    = Some (release 0 {| pool_size := 3; available := [1; 2] |}, tr)
    ∧ appends tr = []
    ∧ clicks tr = 0
    ∧ visits tr = [Example.url_c]
    ∧ logged ERROR tr
      = ["Error scraping data from " +:+ Example.url_c
         +:+ ": cannot access local variable 'category_name'"].
Proof.
  apply (untitled_first_group_aborts Example.env_c Example.url_c "core"
           "shots" (DriverPool_init 3) 0 0
           {| pool_size := 3; available := [1; 2] |} Example.page_c
           Example.group_untitled [Example.group_own]
           NoSuchElementException); reflexivity.
Defined.

(** X8: once a category name has been read, a group whose title cannot be
    read is skipped: the records appended, the category kept for the groups
    and pages that follow and the decision to continue are what they would
    be without that group. *)
Theorem untitled_group_is_skipped :
  ∀ keyword name pre group post e,
    g_title group = Raise e →
    let with_group := groups_loop keyword (Some name) (pre ++ group :: post) in
    let without := groups_loop keyword (Some name) (pre ++ post) in
    appends with_group.1.1 = appends without.1.1
    ∧ with_group.1.2 = without.1.2
    ∧ with_group.2 = without.2.
Proof.
  intros keyword name pre group post e Htitle. revert name.
  induction pre as [|g pre IH]; intros name; simpl.
  - rewrite Htitle.
    destruct (groups_loop keyword (Some name) post) as [[evs cn] out].
    done.
  - destruct (g_title g) as [title|e'].
    + destruct (negb _); [done|].
      specialize (IH title). simpl in IH.
      destruct (groups_loop keyword (Some title) (pre ++ group :: post))
        as [[evs1 cn1] out1].
      destruct (groups_loop keyword (Some title) (pre ++ post))
        as [[evs2 cn2] out2].
      simpl in *. destruct IH as (Happ & -> & ->).
      by rewrite !appends_app, Happ.
    + specialize (IH name). simpl in IH.
      destruct (groups_loop keyword (Some name) (pre ++ group :: post))
        as [[evs1 cn1] out1].
      destruct (groups_loop keyword (Some name) (pre ++ post))
        as [[evs2 cn2] out2].
      simpl in *. done.
Qed.

Lemma untitled_group_is_skipped_witness :
  appends (groups_loop "core" (Some "Requested article")
             ([Example.group_own] ++ Example.group_untitled
              :: [Example.group_requested])).1.1
  = appends (groups_loop "core" (Some "Requested article")
               ([Example.group_own] ++ [Example.group_requested])).1.1.
Proof.
  apply (untitled_group_is_skipped "core" "Requested article"
           [Example.group_own] Example.group_untitled
           [Example.group_requested] NoSuchElementException).
  reflexivity.
Defined.

Lemma visits_app tr1 tr2 : visits (tr1 ++ tr2) = visits tr1 ++ visits tr2.
Proof. apply omap_app. Qed.

Lemma clicks_app tr1 tr2 : clicks (tr1 ++ tr2) = clicks tr1 + clicks tr2.
Proof. unfold clicks. by rewrite filter_app, length_app. Qed.

(** A page of eligible groups is processed to its end: every parsed record
    is appended, in document order, and the loop asks to continue. *)
Lemma groups_loop_all_eligible keyword groups :
  Forall titled_eligible groups →
  ∀ category_name,
    ∃ evs category_name',
      groups_loop keyword category_name groups
      = (evs, category_name', Ok true)
      ∧ appends evs = flat_map (parsed_records keyword) groups
      ∧ visits evs = [] ∧ clicks evs = 0.
Proof.
  induction 1 as [|g groups (name & Hname & Hel) _ IH]; intros category_name.
  - simpl. by eexists _, _.
  - simpl. rewrite Hname, Hel. simpl.
    destruct (IH (Some name)) as (evs & cn & -> & Happ & Hvis & Hclk).
    eexists _, _. split; [reflexivity|].
    assert (Hrows : forallb sink_or_log
                      (map (row_event keyword name) (g_rows g)) = true).
    { apply forallb_forall. intros ev Hin.
      apply in_map_iff in Hin as (row & <- & _).
      unfold row_event. by destruct (parse_row_data _ _ _). }
    apply sink_or_log_visits in Hrows as [Hv Hc].
    rewrite appends_app, appends_rows, Happ, visits_app, clicks_app.
    rewrite Hv, Hc, Hvis, Hclk. unfold parsed_records at 2. by rewrite Hname.
Qed.



(** X17: a row that fails to parse is logged and dropped on its own: the
    rows of the group in front of it and after it are appended as if it were
    not there. *)
Theorem failed_row_is_dropped_alone :
  ∀ keyword name rows1 row rows2 e,
    parse_row_data row name keyword = Raise e →
    appends (map (row_event keyword name) (rows1 ++ row :: rows2))
    = appends (map (row_event keyword name) (rows1 ++ rows2))
    ∧ logged ERROR (map (row_event keyword name) (rows1 ++ row :: rows2))
      = logged ERROR (map (row_event keyword name) rows1)
        ++ ["Error parsing row in " +:+ keyword +:+ "'s category '"
            +:+ name +:+ "': " +:+ exn_str e]
        ++ logged ERROR (map (row_event keyword name) rows2).
Proof.
  intros keyword name rows1 row rows2 e Hrow.
  assert (Hev : row_event keyword name row
                = EvLog ERROR ("Error parsing row in " +:+ keyword
                               +:+ "'s category '" +:+ name +:+ "': "
                               +:+ exn_str e)).
  { unfold row_event. by rewrite Hrow. }
  rewrite !map_app, !appends_app, !logged_app. cbn [map].
  change (row_event keyword name row :: ?l)
    with ([row_event keyword name row] ++ l).
  rewrite appends_app, logged_app, Hev. split; reflexivity.
Qed.

Lemma failed_row_is_dropped_alone_witness :
  appends (map (row_event "brake pad" "Own stock warehouses")
             ([Example.row_with_price "1"] ++ Example.row_without_name
              :: [Example.row_with_price "2"]))
  = appends (map (row_event "brake pad" "Own stock warehouses")
               ([Example.row_with_price "1"] ++ [Example.row_with_price "2"])).
Proof.
  apply (failed_row_is_dropped_alone "brake pad" "Own stock warehouses"
           [Example.row_with_price "1"] Example.row_without_name
           [Example.row_with_price "2"] NoSuchElementException).
  reflexivity.
Defined.

(** X18: on a page of eligible groups whose next-page control is enabled,
    a click that raises, or that loads a page on which no group appears
    before the timeout, ends the pagination without raising: the records of
    the page have been appended, the control has been clicked once, and the
    failure is logged unless it is a [NoSuchElementException]. *)
Theorem failed_click_ends_pagination :
  ∀ env keyword folder fuel page page_num category_name cls e,
    Forall titled_eligible (p_groups page) →
    p_next page = Ok cls →
    is_disabled cls = false →
    (click_next env page = Raise e
     ∨ ∃ next, click_next env page = Ok next ∧ p_groups next = []
               ∧ e = TimeoutException) →
    ∃ evs,
      scrape_loop env keyword folder (S fuel) page page_num category_name
      = Some (evs, Ok ())
      ∧ visits evs = [p_url page]
      ∧ clicks evs = 1
      ∧ appends evs = flat_map (parsed_records keyword) (p_groups page)
      ∧ logged ERROR evs
        = logged ERROR (groups_loop keyword category_name (p_groups page)).1.1
          ++ logged ERROR (next_page_handler e).
Proof.
  intros env keyword folder fuel page page_num category_name cls e
    Hel Hnext Hdis Hclick.
  simpl. destruct (mfr_value_of_returns (p_url page)) as [mfr_value ->].
  destruct (groups_loop_all_eligible keyword _ Hel category_name)
    as (gevs & cn & -> & Happ & Hvis & Hclk).
  assert (Hnp : next_page env page = (EvClickNext :: next_page_handler e, None)).
  { unfold next_page. unfold_bind. rewrite Hnext, Hdis.
    destruct Hclick as [->|(next & -> & -> & ->)]; reflexivity. }
  rewrite Hnp. eexists. split; [reflexivity|].
  assert (Hh : visits (next_page_handler e) = []
               ∧ clicks (next_page_handler e) = 0
               ∧ appends (next_page_handler e) = []) by (by destruct e).
  destruct Hh as (Hhv & Hhc & Hha).
  change (?a :: ?b :: gevs ++ EvClickNext :: next_page_handler e)
    with ([a; b] ++ gevs ++ [EvClickNext] ++ next_page_handler e).
  rewrite !logged_app, !visits_app, !clicks_app, !appends_app.
  rewrite Hvis, Hclk, Happ, Hhv, Hhc, Hha. simpl.
  by rewrite !app_nil_r.
Qed.

Lemma failed_click_ends_pagination_witness :
  ∃ evs,
    scrape_loop Example.env "core" "shots" 1
      (Example.listing Example.url_c [Example.group_own]
         (Ok (Some "page-next"))) 1 None
    = Some (evs, Ok ())
    ∧ visits evs = [Example.url_c]
    ∧ clicks evs = 1
    ∧ appends evs = flat_map (parsed_records "core") [Example.group_own]
    ∧ logged ERROR evs
      = logged ERROR
          (groups_loop "core" None [Example.group_own]).1.1
        ++ logged ERROR
             (next_page_handler (OtherException "element click intercepted")).
Proof.
  apply (failed_click_ends_pagination Example.env "core" "shots" 0
           (Example.listing Example.url_c [Example.group_own]
              (Ok (Some "page-next")))
           1 None (Some "page-next")
           (OtherException "element click intercepted")).
  - apply Forall_cons. split; [|apply Forall_nil_2].
    exists "Own stock warehouses". split; reflexivity.
  - reflexivity.
  - reflexivity.
  - left. reflexivity.
Defined.

(** ** Manufacturer discovery *)

Lemma links_loop_all env rows :
  ∀ urls acc,
    Forall2 (fun row u => resolve_link env row = Ok u) rows urls →
    links_loop env rows acc = (acc ++ urls, Ok ()).
Proof.
  induction rows as [|row rows IH]; intros urls acc Hall.
  - apply Forall2_nil_inv_l in Hall as ->. simpl. by rewrite app_nil_r.
  - apply Forall2_cons_inv_l in Hall as (u & urls' & Hu & Hrest & ->).
    simpl. fold (resolve_link env row). rewrite Hu.
    rewrite (IH urls' (acc ++ [u]) Hrest). by rewrite <- app_assoc.
Qed.

(** X10: what a discovery returns once the search page has loaded.  Without
    any listing link the wait times out: nothing is returned and an error
    is logged, whatever the page says otherwise.  With a link on the page:
    the no-results label gives nothing; otherwise a redirect to a URL
    containing [searchspareparts] gives that URL alone, the links being
    ignored; otherwise, when all links can be read and resolved, the result
    is what they resolve to, in document order. *)
Theorem discovery_outcomes :
  ∀ env n keyword page,
    discovery_get env n (build_apec_manufacturer_search env keyword) = Ok page →
    let initial_url := build_apec_manufacturer_search env keyword in
    let found := get_manufacturer_urls env n keyword in
    match p_links page with
    | [] =>
        found.1 = []
        ∧ logged ERROR found.2
          = ["Error extracting manufacturer links for keyword " +:+ keyword
             +:+ ": timeout"]
    | _ =>
        if bool_decide (p_error_label page = Some "None") then
          found.1 = []
          ∧ logged WARNING found.2
            = ["No results found for keyword '" +:+ keyword +:+ "'."]
        else if negb (String.eqb initial_url (p_url page))
                && Py.contains "searchspareparts" (p_url page)
        then found.1 = [p_url page]
        else
          ∀ urls,
            Forall2 (fun row u => resolve_link env row = Ok u)
              (p_links page) urls →
            found.1 = urls ∧ logged ERROR found.2 = []
    end.
Proof.
  intros env n keyword page Hget initial_url found. subst found initial_url.
  unfold get_manufacturer_urls, discovery_body. unfold_bind. rewrite Hget.
  destruct (p_links page) as [|row rows] eqn:Hlinks; simpl; [done|].
  case_bool_decide; simpl; [done|].
  destruct (negb _ && _); simpl; [done|].
  intros urls Hall. rewrite Hlinks.
  by rewrite (links_loop_all env (row :: rows) urls [] Hall).
Qed.

Lemma discovery_outcomes_witness :
  (get_manufacturer_urls Example.env 0 "brake pad").1
  = ["https://apecauto.com/searchspareparts.aspx?pn=A1&mfr=ACME";
     "https://apecauto.com/searchspareparts.aspx?pn=A1"]
  ∧ logged ERROR (get_manufacturer_urls Example.env 0 "brake pad").2 = [].
Proof.
  refine (discovery_outcomes Example.env 0 "brake pad"
            (Example.page_search "brake pad") eq_refl _ _).
  repeat constructor.
Defined.

(** ** Finalising the sink *)

#[local] Arguments close_handler : simpl never.
#[local] Arguments close_loop : simpl never.

Lemma prompts_app tr1 tr2 : prompts (tr1 ++ tr2) = prompts tr1 + prompts tr2.
Proof. unfold prompts. by rewrite omap_app, length_app. Qed.

Lemma close_handler_prompts o :
  o ≠ CloseOk → prompts (close_handler o) = 1.
Proof.
  unfold close_handler. destruct o as [|errno msg|e]; [done| |done].
  by destruct (decide (errno = EACCES)).
Qed.

Lemma close_loop_first_success env self n :
  ∀ fuel n0,
    (∀ k, (n0 ≤ k < n)%nat → close_outcome env k ≠ CloseOk) →
    close_outcome env n = CloseOk →
    (n0 ≤ n)%nat → (n - n0 < fuel)%nat →
    close_loop env fuel n0 self
    = Some (flat_map (fun k => EvClose k :: close_handler (close_outcome env k))
              (seq n0 (n - n0)) ++ [EvClose n],
            artifact_of self).
Proof.
  induction fuel as [|fuel IH]; intros n0 Hfail Hok Hle Hfuel; [lia|].
  destruct (decide (n0 = n)) as [->|Hne].
  - rewrite Nat.sub_diag. unfold close_loop. by rewrite Hok.
  - replace (n - n0) with (S (n - S n0)) by lia.
    assert (Hrec : close_loop env fuel (S n0) self
                   = Some (flat_map
                             (fun k =>
                                EvClose k
                                :: close_handler (close_outcome env k))
                             (seq (S n0) (n - S n0)) ++ [EvClose n],
                           artifact_of self)).
    { apply IH; try lia; try done. intros k Hk. apply Hfail. lia. }
    pose proof (Hfail n0) as H0.
    cbn [seq flat_map]. unfold close_loop. fold close_loop. rewrite Hrec.
    destruct (close_outcome env n0); [exfalso; apply H0; [lia|done]| |];
      cbn [mbind option_bind]; by rewrite <- app_assoc.
Qed.

(** X11: [save_workbook] treats every failure of [close] alike, whatever its
    kind: it logs, prompts once and tries again.  When attempt [n] is the
    first that succeeds, it returns after [n] prompts, each failed attempt
    being followed by the records of its handler, and the file written holds
    the sheet and the counter it was called with. *)
Theorem save_workbook_retries_every_failure :
  ∀ env self n fuel,
    (∀ k, k < n → close_outcome env k ≠ CloseOk) →
    close_outcome env n = CloseOk →
    n < fuel →
    ∃ evs a,
      save_workbook env fuel self = Some (evs, a)
      ∧ evs = EvSaveWorkbook
              :: flat_map
                   (fun k => EvClose k :: close_handler (close_outcome env k))
                   (seq 0 n)
              ++ [EvClose n]
      ∧ prompts evs = n
      ∧ art_sheet a = worksheet self
      ∧ art_rows a = row_count self.
Proof.
  intros env self n fuel Hfail Hok Hfuel. unfold save_workbook.
  rewrite (close_loop_first_success env (add_table self) n fuel 0);
    try done; try lia.
  - simpl. rewrite Nat.sub_0_r. eexists _, _. split; [reflexivity|].
    split; [reflexivity|]. split; [|done].
    change (EvSaveWorkbook :: ?l) with ([EvSaveWorkbook] ++ l).
    rewrite !prompts_app.
    replace (prompts [EvSaveWorkbook]) with 0 by reflexivity.
    replace (prompts [EvClose n]) with 0 by reflexivity.
    assert (Hcount : ∀ m n0,
              (∀ k, (n0 ≤ k < n0 + m)%nat → close_outcome env k ≠ CloseOk) →
              prompts (flat_map
                         (fun k =>
                            EvClose k :: close_handler (close_outcome env k))
                         (seq n0 m)) = m).
    { induction m as [|m IHm]; intros n0 Hm; [done|].
      cbn [seq flat_map]. rewrite prompts_app.
      change (EvClose n0 :: ?l) with ([EvClose n0] ++ l).
      rewrite prompts_app, close_handler_prompts by (apply Hm; lia).
      rewrite IHm by (intros k Hk; apply Hm; lia).
      replace (prompts [EvClose n0]) with 0 by reflexivity. lia. }
    rewrite Hcount; [lia|]. intros k Hk. apply Hfail. lia.
  - intros k Hk. apply Hfail. lia.
Qed.

Lemma save_workbook_retries_every_failure_witness :
  ∃ evs a,
    save_workbook Example.env 3 (MyApecExcel_init "APEC Auto Data" "out")
    = Some (evs, a)
    ∧ evs = EvSaveWorkbook
            :: flat_map
                 (fun k =>
                    EvClose k
                    :: close_handler (close_outcome Example.env k))
                 (seq 0 2)
            ++ [EvClose 2]
    ∧ prompts evs = 2
    ∧ art_sheet a = worksheet (MyApecExcel_init "APEC Auto Data" "out")
    ∧ art_rows a = row_count (MyApecExcel_init "APEC Auto Data" "out").
Proof.
  apply (save_workbook_retries_every_failure Example.env
           (MyApecExcel_init "APEC Auto Data" "out") 2 3).
  - intros k Hk. destruct k as [|[|k]]; [done | done | lia].
  - reflexivity.
  - lia.
Defined.

(** ** Workers sharing the sink *)

Lemma step_stores_rows file s tid s' :
  header_kept file s →
  Forall (fun st => (1 ≤ st_row st)%nat) (stores s) →
  step s tid = Some s' →
  Forall (fun st => (1 ≤ st_row st)%nat) (stores s').
Proof.
  intros [_ Hrows _ _] Hst. unfold step.
  destruct (threads s !! tid) as [th|] eqn:Hth; simpl; [|done].
  pose proof (Forall_lookup_1 _ _ _ _ Hrows Hth) as Hpc.
  destruct th as [[|data rest] pc]; simpl in *; [done|].
  destruct pc as [[|f fields]|f fields row|[data_key url_key] fields row
                  |fields|v]; simpl in Hpc; try (by intros [= <-]).
  - destruct (lock s); [done|]. by intros [= <-].
  - intros [= <-]. simpl. apply Forall_app. split; [done|].
    by apply Forall_singleton.
Qed.

Lemma run_stores_rows file schedule :
  ∀ s,
    header_kept file s →
    Forall (fun st => (1 ≤ st_row st)%nat) (stores s) →
    Forall (fun st => (1 ≤ st_row st)%nat) (stores (run s schedule)).
Proof.
  induction schedule as [|tid schedule IH]; intros s Hs Hst; simpl; [done|].
  destruct (step s tid) as [s'|] eqn:Hstep; simpl.
  - apply IH.
    + by eapply step_header_kept.
    + by eapply step_stores_rows.
  - by apply IH.
Qed.

(** X12: however the workers are scheduled, and however their appends
    overlap, no cell is ever stored in row 0: the header row written by
    [add_headers] stays as it is, and the row counter never falls below 1. *)
Theorem header_row_is_never_overwritten :
  ∀ name output_dir todos schedule,
    let s := run {| sink := MyApecExcel_init name output_dir; lock := None;
                    threads := map spawn todos; stores := [] |} schedule in
    sheet_row (worksheet (sink s)) 0 = header_cells
    ∧ Forall (fun st => (1 ≤ st_row st)%nat) (stores s)
    ∧ (1 ≤ row_count (sink s))%nat.
Proof.
  intros name output_dir todos schedule s.
  pose proof (init_header_kept name output_dir todos) as Hinit.
  pose proof (run_header_kept _ schedule _ Hinit) as [Hcount _ Hheader _].
  split; [exact Hheader|]. split; [|exact Hcount].
  apply (run_stores_rows _ schedule _ Hinit). apply Forall_nil_2.
Qed.

(** X13: when the workers run one after another, the worker model agrees
    with [write_data_row] called by a single writer: all workers finish, the
    counter has advanced by the number of records, and every record of every
    worker is found in a row of its own, in the order of the workers. *)
Theorem workers_in_turn_append_every_record :
  ∀ self todos,
    let s := run {| sink := self; lock := None; threads := map spawn todos;
                    stores := [] |}
               (one_after_another 0 (map length todos)) in
    all_finished s = true
    ∧ sink s = foldl write_data_row self (concat todos)
    ∧ row_count (sink s) = row_count self + length (concat todos)
    ∧ ∀ i data,
        concat todos !! i = Some data →
        sheet_row (worksheet (sink s)) (row_count self + i)
        = record_cells data.
Proof.
  intros self todos s.
  destruct (run_one_after_another todos []
              {| sink := self; lock := None; threads := map spawn todos;
                 stores := [] |} eq_refl eq_refl)
    as (Hsink & _ & Hthreads).
  cbn zeta in Hsink, Hthreads. simpl in Hsink, Hthreads.
  fold s in Hsink, Hthreads.
  split; [|split; [exact Hsink|split]].
  - unfold all_finished. rewrite Hthreads.
    apply forallb_forall. intros th Hin.
    apply in_map_iff in Hin as (todo & <- & _). reflexivity.
  - rewrite Hsink. apply foldl_write_data_row_count.
  - intros i data Hi. rewrite Hsink.
    by apply foldl_write_data_row_keeps.
Qed.

(** ** Orchestrator *)

#[local] Arguments one_after_another : simpl never.
#[local] Arguments MyApecExcel_init : simpl never.

Lemma run_no_threads schedule :
  ∀ s, threads s = [] → run s schedule = s.
Proof.
  induction schedule as [|tid schedule IH]; intros s Hs; simpl; [done|].
  unfold step. rewrite Hs. simpl. by apply IH.
Qed.

(** X14: when no keyword has found a manufacturer page (the dictionary maps
    every keyword to an empty list), the orchestrator still creates the
    workbook and, once [close] succeeds, writes a file that holds the header
    row and nothing else; no task is submitted. *)
Theorem no_manufacturer_gives_header_only_file :
  ∀ env sch d output_dir n,
    fan_out d = [] →
    close_outcome env n = CloseOk →
    (n < close_fuel sch)%nat →
    ∃ r a,
      process_and_scrape_manufacturer_data env sch d output_dir = Some r
      ∧ run_tasks r = []
      ∧ run_files r = [a]
      ∧ art_file a = os_path_join output_dir "APEC Auto Data.xlsx"
      ∧ art_rows a = 1
      ∧ sheet_row (art_sheet a) 0 = header_cells
      ∧ ∀ row col, (1 ≤ row)%nat → art_sheet a !! (row, col) = None.
Proof.
  intros env sch d output_dir n Hnone Hok Hfuel.
  unfold process_and_scrape_manufacturer_data, save_workbook.
  rewrite Hnone. simpl. rewrite run_no_threads by done. simpl.
  match goal with
  | |- context [close_loop env (close_fuel sch) 0 ?self] =>
      destruct (close_loop_succeeds env self n Hok (close_fuel sch) 0)
        as [[cevs a] Hclose]; [lia|lia|]; rewrite Hclose;
      pose proof (close_loop_artifact _ _ _ _ _ _ Hclose) as ->
  end.
  simpl. eexists _, _. split; [reflexivity|].
  repeat split; try reflexivity.
  intros row col Hrow. unfold MyApecExcel_init, add_headers. simpl.
  rewrite !lookup_insert_ne by (intros [= ? ?]; lia). apply lookup_empty.
Qed.

Lemma no_manufacturer_gives_header_only_file_witness :
  ∃ r a,
    process_and_scrape_manufacturer_data Example.env Example.sch
      [("x", [])] "out" = Some r
    ∧ run_tasks r = []
    ∧ run_files r = [a]
    ∧ art_file a = os_path_join "out" "APEC Auto Data.xlsx"
    ∧ art_rows a = 1
    ∧ sheet_row (art_sheet a) 0 = header_cells
    ∧ ∀ row col, (1 ≤ row)%nat → art_sheet a !! (row, col) = None.
Proof.
  apply (no_manufacturer_gives_header_only_file Example.env Example.sch
           [("x", [])] "out" 2).
  - reflexivity.
  - reflexivity.
  - simpl. lia.
Defined.

(** X15: when the workers run one after another (schedule [settled]), a
    returning call of the orchestrator writes a file that holds the header
    row, then every record appended by every task, task by task and in the
    order each task appended them, one row each; the row counter and the
    table added by [add_table] span exactly these rows. *)
Theorem settled_run_keeps_every_record :
  ∀ env fuel d output_dir traces attempts r,
    run_tasks_of env fuel (create_subfolder env output_dir "APEC Screenshots")
      (fan_out d) = Some traces →
    process_and_scrape_manufacturer_data env (settled fuel traces attempts) d
      output_dir = Some r →
    ∃ a,
      run_files r = [a]
      ∧ art_rows a = 1 + length (concat (map appends traces))
      ∧ art_table a
        = Some (0, 0, length (concat (map appends traces)), get_enum_last_col,
                get_enum_headers_row)
      ∧ sheet_row (art_sheet a) 0 = header_cells
      ∧ ∀ i data,
          concat (map appends traces) !! i = Some data →
          sheet_row (art_sheet a) (1 + i) = record_cells data.
Proof.
  intros env fuel d output_dir traces attempts r Htasks Hrun.
  destruct (process_and_scrape_returns _ _ _ _ _ Hrun)
    as (traces' & evs & a & Htasks' & _ & Hclose & ->).
  simpl in Htasks'. rewrite Htasks in Htasks'. injection Htasks' as <-.
  pose proof (close_loop_artifact _ _ _ _ _ _ Hclose) as ->.
  destruct (settled_finishes (MyApecExcel_init "APEC Auto Data" output_dir)
              traces) as [_ Hsink].
  cbn zeta in Hsink. simpl. eexists. split; [reflexivity|].
  unfold artifact_of, add_table. simpl. rewrite Hsink.
  rewrite foldl_write_data_row_count.
  change (row_count (MyApecExcel_init "APEC Auto Data" output_dir)) with 1.
  split; [reflexivity|]. split.
  { replace (1 + length (concat (map appends traces)) - 1)
      with (length (concat (map appends traces))) by lia.
    reflexivity. }
  split.
  - unfold sheet_row. erewrite map_ext.
    2:{ intros col. apply foldl_write_data_row_below.
        change (row_count (MyApecExcel_init "APEC Auto Data" output_dir))
          with 1. lia. }
    reflexivity.
  - intros i data Hi.
    by apply (foldl_write_data_row_keeps _
                (MyApecExcel_init "APEC Auto Data" output_dir)).
Qed.

Lemma settled_run_keeps_every_record_witness :
  ∃ a,
    default [] (run_files <$>
                process_and_scrape_manufacturer_data Example.env
                  (settled 5
                     (default []
                        (run_tasks_of Example.env 5
                           (create_subfolder Example.env "out"
                              "APEC Screenshots")
                           (fan_out [("brake pad", [Example.url_a])])))
                     3)
                  [("brake pad", [Example.url_a])] "out")
    = [a]
    ∧ art_rows a = 4.
Proof.
  destruct (process_and_scrape_manufacturer_data Example.env
              (settled 5
                 (default []
                    (run_tasks_of Example.env 5
                       (create_subfolder Example.env "out" "APEC Screenshots")
                       (fan_out [("brake pad", [Example.url_a])])))
                 3)
              [("brake pad", [Example.url_a])] "out") as [r|] eqn:Hrun.
  - destruct (settled_run_keeps_every_record Example.env 5
                [("brake pad", [Example.url_a])] "out" _ 3 r eq_refl Hrun)
      as (a & Hfiles & Hrows & _).
    exists a. simpl. split; [exact Hfiles|]. rewrite Hrows. reflexivity.
  - vm_compute in Hrun. discriminate Hrun.
Defined.

(** ** Screenshot names *)

(** X16: indexing the values of the [mfr] parameter with [0] never fails:
    the manufacturer identifier is the first value of the parameter when the
    query of the current URL has one, and ["unknown"] when it has none. *)
Theorem mfr_lookup_never_fails :
  ∀ current_url,
    ∃ mfr_value,
      mfr_value_of current_url = Ok mfr_value
      ∧ match dict_get "mfr" (Url.parse_qs (Url.query current_url)) with
        | Some values => head values = Some mfr_value
        | None => mfr_value = "unknown"
        end.
Proof.
  intros current_url.
  destruct (mfr_value_of_returns current_url) as [mfr_value Hv].
  exists mfr_value. split; [exact Hv|].
  unfold mfr_value_of in Hv.
  destruct (dict_get "mfr" (Url.parse_qs (Url.query current_url)))
    as [[|v vs]|]; cbn in Hv |- *; congruence.
Qed.
